(** * Whisper transcription server

    A shallow embedding of [whisper_flask_server3.py] (and of the two
    functions it shares with [whisper_flask_server.py]): the SRT timestamp
    rendering, the subtitle segmenter, the job runner, the progress
    registry and the HTTP handlers around them.

    Python values are embedded as follows.
    - [int] is [Z].
    - [str] is the list of its Unicode code points, [bytes] the list of its
      octets (both [list Z]); the character classes are those of the
      Unicode 14 tables of CPython 3.11.
    - [float] is an IEEE-754 binary64 number, kept as an exact integer
      multiple of [2^-1074]; every arithmetic operation rounds the exact
      result to the nearest representable number, ties to even.
    - a [dict] is a [gmap].
    - a [while] loop runs on fuel; an exception is a value of [exn]. *)

From Stdlib Require Import ZArith String Ascii Lia Bool Sorted.
From stdpp Require Import gmap strings list.

#[local] Open Scope Z_scope.

(** ** Results of running Python code *)

Inductive exn_kind : Type :=
  | ValueError | OverflowError | ZeroDivisionError | IndexError | KeyError
  | UnicodeDecodeError | OSError | RuntimeError.

(** An exception carries its kind and the text [str(e)] gives. *)
Record exn : Type := Exn { exn_kind_of : exn_kind; exn_str : list Z }.

(** [Ret a]: normal completion; [Exc e]: an exception escaped;
    [Fuel]: a loop was still running when the fuel ran out. *)
Inductive res (A : Type) : Type :=
  | Ret (a : A)
  | Exc (e : exn)
  | Fuel.
Arguments Ret {A} a.
Arguments Exc {A} e.
Arguments Fuel {A}.

Definition res_bind {A B : Type} (m : res A) (k : A → res B) : res B :=
  match m with
  | Ret a => k a
  | Exc e => Exc e
  | Fuel => Fuel
  end.

#[global] Instance res_mret : MRet res := @Ret.
#[global] Instance res_mbind : MBind res := λ A B k m, res_bind m k.
#[global] Instance res_fmap : FMap res := λ A B f m, res_bind m (λ a, Ret (f a)).

(** [while cond: body], at most [fuel] iterations. *)
Fixpoint while {St : Type} (fuel : nat) (cond : St → bool)
    (body : St → res St) (s : St) : res St :=
  if cond s then
    match fuel with
    | O => Fuel
    | S fuel' => s' ← body s; while fuel' cond body s'
    end
  else Ret s.

(** [for x in xs: body], threading the loop state. *)
Fixpoint for_each {X St : Type} (xs : list X) (body : X → St → res St)
    (s : St) : res St :=
  match xs with
  | [] => Ret s
  | x :: xs' => s' ← body x s; for_each xs' body s'
  end.

(** ** Strings and bytes *)

Module PyStr.

Abbreviation str := (list Z) (only parsing).
Abbreviation bytes := (list Z) (only parsing).

(** The octets of a literal. *)
Definition octets (s : string) : bytes :=
  (λ a, Z.of_N (N_of_ascii a)) <$> list_ascii_of_string s.

Definition is_cont (b : Z) : bool := (0x80 <=? b) && (b <=? 0xBF).

(** [bytes.decode()]: strict UTF-8; [None] is [UnicodeDecodeError]. *)
Fixpoint utf8_decode (bs : bytes) : option str :=
  match bs with
  | [] => Some []
  | b0 :: r0 =>
    if (0 <=? b0) && (b0 <? 0x80) then cons b0 <$> utf8_decode r0
    else if (0xC2 <=? b0) && (b0 <=? 0xDF) then
      match r0 with
      | b1 :: r1 =>
        if is_cont b1
        then cons ((b0 - 0xC0) * 64 + (b1 - 0x80)) <$> utf8_decode r1
        else None
      | _ => None
      end
    else if (0xE0 <=? b0) && (b0 <=? 0xEF) then
      match r0 with
      | b1 :: b2 :: r2 =>
        let lo := if b0 =? 0xE0 then 0xA0 else 0x80 in
        let hi := if b0 =? 0xED then 0x9F else 0xBF in
        if (lo <=? b1) && (b1 <=? hi) && is_cont b2
        then cons ((b0 - 0xE0) * 4096 + (b1 - 0x80) * 64 + (b2 - 0x80))
               <$> utf8_decode r2
        else None
      | _ => None
      end
    else if (0xF0 <=? b0) && (b0 <=? 0xF4) then
      match r0 with
      | b1 :: b2 :: b3 :: r3 =>
        let lo := if b0 =? 0xF0 then 0x90 else 0x80 in
        let hi := if b0 =? 0xF4 then 0x8F else 0xBF in
        if (lo <=? b1) && (b1 <=? hi) && is_cont b2 && is_cont b3
        then cons ((b0 - 0xF0) * 262144 + (b1 - 0x80) * 4096
                   + (b2 - 0x80) * 64 + (b3 - 0x80))
               <$> utf8_decode r3
        else None
      | _ => None
      end
    else None
  end.

(** A [str] literal, written in UTF-8. *)
Definition u (s : string) : str := default [] (utf8_decode (octets s)).

(** [c.isspace()] for one code point. *)
Definition isspace_char (c : Z) : bool :=
  (9 <=? c) && (c <=? 13) || (28 <=? c) && (c <=? 32)
  || (c =? 0x85) || (c =? 0xA0) || (c =? 0x1680)
  || (0x2000 <=? c) && (c <=? 0x200A)
  || (c =? 0x2028) || (c =? 0x2029) || (c =? 0x202F)
  || (c =? 0x205F) || (c =? 0x3000).

Fixpoint lstrip (s : str) : str :=
  match s with
  | c :: r => if isspace_char c then lstrip r else s
  | [] => []
  end.

Definition rstrip (s : str) : str := reverse (lstrip (reverse s)).

(** [s.strip()] *)
Definition strip (s : str) : str := rstrip (lstrip s).

(** [sep.join(l)] *)
Fixpoint join (sep : str) (l : list str) : str :=
  match l with
  | [] => []
  | [x] => x
  | x :: r => x ++ sep ++ join sep r
  end.

Fixpoint uint_digits (d : Decimal.uint) : str :=
  match d with
  | Decimal.Nil => []
  | Decimal.D0 d => 48 :: uint_digits d
  | Decimal.D1 d => 49 :: uint_digits d
  | Decimal.D2 d => 50 :: uint_digits d
  | Decimal.D3 d => 51 :: uint_digits d
  | Decimal.D4 d => 52 :: uint_digits d
  | Decimal.D5 d => 53 :: uint_digits d
  | Decimal.D6 d => 54 :: uint_digits d
  | Decimal.D7 d => 55 :: uint_digits d
  | Decimal.D8 d => 56 :: uint_digits d
  | Decimal.D9 d => 57 :: uint_digits d
  end.

(** The decimal digits of [|n|]. *)
Definition digits (n : Z) : str :=
  match n with
  | Z0 => [48]
  | Zpos p | Zneg p => uint_digits (Pos.to_uint p)
  end.

(** [str(n)], that is [f"{n}"]. *)
Definition str_of_int (n : Z) : str :=
  if n <? 0 then 45 :: digits n else digits n.

Definition zfill (w : nat) (s : str) : str :=
  replicate (w - length s) 48 ++ s.

(** [f"{n:0wd}"]: zeros after the sign, up to [w] characters in all. *)
Definition format_0d (w : nat) (n : Z) : str :=
  if n <? 0 then 45 :: zfill (w - 1) (digits n) else zfill w (digits n).

(** [s.startswith(p)] *)
Fixpoint starts_with (p s : list Z) : bool :=
  match p, s with
  | [], _ => true
  | a :: p', b :: s' => (a =? b) && starts_with p' s'
  | _ :: _, [] => false
  end.

(** [s.endswith(p)] *)
Definition ends_with (p s : list Z) : bool :=
  starts_with (reverse p) (reverse s).

(** [s.find(sub)]: the first index where [sub] occurs, or [-1]. *)
Fixpoint find (sub s : list Z) : Z :=
  if starts_with sub s then 0
  else match s with
       | [] => -1
       | _ :: s' => let k := find sub s' in if k <? 0 then -1 else k + 1
       end.

(** [sub in s] *)
Definition contains (sub s : list Z) : bool := 0 <=? find sub s.

Fixpoint split_go (sep s cur : list Z) (skip : nat) : list (list Z) :=
  match s with
  | [] => [reverse cur]
  | c :: r =>
    match skip with
    | S k => split_go sep r cur k
    | O =>
      if starts_with sep s
      then reverse cur :: split_go sep r [] (length sep - 1)
      else split_go sep r (c :: cur) 0
    end
  end.

(** [s.split(sep)] for a separator that is not empty (an empty one raises
    in Python; every separator of this program is a constant that is not
    empty, or starts with [--]). *)
Definition split (sep s : list Z) : list (list Z) := split_go sep s [] 0.

(** [s[k:]] for [k >= 0]. *)
Definition slice_from (k : Z) (s : list Z) : list Z := drop (Z.to_nat k) s.

(** The code point of the zero of every run of ten decimal digits
    (general category Nd). *)
Definition decimal_zeros : list Z :=
  [48; 1632; 1776; 1984; 2406; 2534; 2662; 2790; 2918; 3046; 3174; 3302;
   3430; 3558; 3664; 3792; 3872; 4160; 4240; 6112; 6160; 6470; 6608; 6784;
   6800; 6992; 7088; 7232; 7248; 42528; 43216; 43264; 43472; 43504; 43600;
   44016; 65296; 66720; 68912; 69734; 69872; 69942; 70096; 70384; 70736;
   70864; 71248; 71360; 71472; 71904; 72016; 72784; 73040; 73120; 92768;
   92864; 93008; 120782; 120792; 120802; 120812; 120822; 123200; 123632;
   125264; 130032].

(** [unicodedata.decimal(c)], when defined. *)
Definition to_decimal (c : Z) : option Z :=
  (λ z, c - z) <$> List.find (λ z, (z <=? c) && (c <=? z + 9)) decimal_zeros.

(** The digits that are not decimal digits (superscripts, circled digits
    and the like): ranges of code points. *)
Definition other_digits : list (Z * Z) :=
  [(178, 179); (185, 185); (4969, 4977); (6618, 6618); (8304, 8304);
   (8308, 8313); (8320, 8329); (9312, 9320); (9332, 9340); (9352, 9360);
   (9450, 9450); (9461, 9469); (9471, 9471); (10102, 10110);
   (10112, 10120); (10122, 10130); (68160, 68163); (69216, 69224);
   (69714, 69722); (127232, 127242)].

Definition isdigit_char (c : Z) : bool :=
  bool_decide (is_Some (to_decimal c))
  || existsb (λ r, (r.1 <=? c) && (c <=? r.2)) other_digits.

(** [s.isdigit()] *)
Definition isdigit (s : str) : bool :=
  match s with
  | [] => false
  | _ => forallb isdigit_char s
  end.

(** The whitespace the C parser of [int] skips. *)
Definition c_isspace (c : Z) : bool := (9 <=? c) && (c <=? 13) || (c =? 32).

Fixpoint skip_spaces (s : str) : str :=
  match s with
  | c :: r => if c_isspace c then skip_spaces r else s
  | [] => []
  end.

(** Every decimal digit becomes its ASCII digit and every space beyond
    ASCII a blank; a character with neither reading makes [int] fail. *)
Fixpoint ascii_fold (s : str) : option str :=
  match s with
  | [] => Some []
  | c :: r =>
    c' ← (if c <? 128 then Some c
          else if isspace_char c then Some 32
          else (λ d, 48 + d) <$> to_decimal c);
    cons c' <$> ascii_fold r
  end.

(** Digits with single underscores between them; [prev] is the character
    before. Gives the value, the number of digits and what follows. *)
Fixpoint scan_digits (s : str) (prev : Z) (acc : Z) (n : nat)
    : option (Z * nat * str) :=
  match s with
  | c :: r =>
    if (48 <=? c) && (c <=? 57) then scan_digits r c (10 * acc + (c - 48)) (S n)
    else if c =? 95 then
      if prev =? 95 then None else scan_digits r c acc n
    else if prev =? 95 then None else Some (acc, n, s)
  | [] => if prev =? 95 then None else Some (acc, n, [])
  end.

(** The longest text [int] converts (CPython 3.11 on). *)
Definition int_max_str_digits : nat := 4300.

(** [int(s)] for a [str]; [None] is [ValueError]. *)
Definition int_of_str (s : str) : option Z :=
  a ← ascii_fold s;
  let s1 := skip_spaces a in
  let '(neg, s2) :=
    match s1 with
    | c :: r =>
      if c =? 43 then (false, r) else if c =? 45 then (true, r)
      else (false, s1)
    | [] => (false, s1)
    end in
  if starts_with [95] s2 then None
  else
    '(v, n, rest) ← scan_digits s2 0 0 0;
    if bool_decide (n = 0%nat) then None
    else if bool_decide (int_max_str_digits < n)%nat then None
    else match skip_spaces rest with
         | [] => Some (if neg then - v else v)
         | _ => None
         end.

(** The UTF-8 octets of one code point; [None] for a surrogate or a
    number that is no code point. *)
Definition utf8_encode_char (c : Z) : option bytes :=
  if (0 <=? c) && (c <? 0x80) then Some [c]
  else if (0x80 <=? c) && (c <? 0x800) then
    Some [0xC0 + c / 64; 0x80 + c mod 64]
  else if (0x800 <=? c) && (c <? 0x10000) then
    if (0xD800 <=? c) && (c <=? 0xDFFF) then None
    else Some [0xE0 + c / 4096; 0x80 + c / 64 mod 64; 0x80 + c mod 64]
  else if (0x10000 <=? c) && (c <? 0x110000) then
    Some [0xF0 + c / 262144; 0x80 + c / 4096 mod 64; 0x80 + c / 64 mod 64;
          0x80 + c mod 64]
  else None.

(** [s.encode()]; [None] is [UnicodeEncodeError]. *)
Fixpoint utf8_encode (s : str) : option bytes :=
  match s with
  | [] => Some []
  | c :: r => b ← utf8_encode_char c; app b <$> utf8_encode r
  end.

End PyStr.

(** ** Floating-point numbers *)

Module PyFloat.

(** [Fin n] is the number [n / 2^1074]: every finite binary64 number is
    such a multiple, the least positive one being [Fin 1]. The sign of a
    zero is not kept: nothing below depends on it. *)
Inductive float : Type :=
  | Fin (n : Z)
  | Inf (neg : bool)
  | NaN.

(** The numerator of 1.0. *)
Definition one : Z := 2 ^ 1074.

(** The first magnitude beyond the finite numbers, [2^1024]. *)
Definition huge : Z := 2 ^ 2098.

(** [a / d] rounded to the nearest integer, a tie to the even one
    ([0 <= a], [0 < d]). *)
Definition rne (a d : Z) : Z :=
  let q := a / d in
  let r := a mod d in
  if 2 * r <? d then q
  else if d <? 2 * r then q + 1
  else if Z.even q then q else q + 1.

(** The numerator of the binary64 number nearest to [p / q] grid steps
    ([0 <= p], [0 < q]): 53 significant bits, the grid itself where the
    number is subnormal. *)
Definition round_pos (p q : Z) : Z :=
  let s := Z.max 0 (Z.log2 (p / q) - 52) in
  rne p (q * 2 ^ s) * 2 ^ s.

(** Rounding of the exact value [p / q] grid steps ([0 < q]). *)
Definition round (p q : Z) : float :=
  let r := round_pos (Z.abs p) q in
  if huge <=? r then Inf (p <? 0) else Fin (Z.sgn p * r).

(** A decimal literal [p / q], such as [0.5] or [3725.125]. *)
Definition dec (p q : Z) : float := round (p * one) q.

(** The float of an [int] operand (exact below [2^53]). *)
Definition of_int (n : Z) : float := round (n * one) 1.

Definition neg (x : float) : float :=
  match x with
  | Fin n => Fin (- n)
  | Inf b => Inf (negb b)
  | NaN => NaN
  end.

Definition add (x y : float) : float :=
  match x, y with
  | NaN, _ | _, NaN => NaN
  | Inf a, Inf b => if eqb a b then Inf a else NaN
  | Inf a, Fin _ | Fin _, Inf a => Inf a
  | Fin a, Fin b => round (a + b) 1
  end.

Definition sub (x y : float) : float := add x (neg y).

Definition mul (x y : float) : float :=
  match x, y with
  | NaN, _ | _, NaN => NaN
  | Inf a, Inf b => Inf (xorb a b)
  | Inf a, Fin n | Fin n, Inf a =>
    if n =? 0 then NaN else Inf (xorb a (n <? 0))
  | Fin a, Fin b => round (a * b) one
  end.

(** The quotient of the C language, for a divisor that is not zero. *)
Definition div (x y : float) : float :=
  match x, y with
  | NaN, _ | _, NaN => NaN
  | Inf _, Inf _ => NaN
  | Inf a, Fin n => Inf (xorb a (n <? 0))
  | Fin _, Inf _ => Fin 0
  | Fin a, Fin b => round (a * one * Z.sgn b) (Z.abs b)
  end.

(** [fmod] of the C library: exact, with the sign of the dividend. *)
Definition fmod (x y : float) : float :=
  match x, y with
  | NaN, _ | _, NaN => NaN
  | Inf _, _ => NaN
  | Fin a, Inf _ => Fin a
  | Fin a, Fin b => if b =? 0 then NaN else Fin (Z.rem a b)
  end.

Definition floor (x : float) : float :=
  match x with
  | Fin n => Fin (n / one * one)
  | _ => x
  end.

Definition is_zero (x : float) : bool :=
  match x with
  | Fin n => n =? 0
  | _ => false
  end.

(** [x < 0] *)
Definition ltz (x : float) : bool :=
  match x with
  | Fin n => n <? 0
  | Inf b => b
  | NaN => false
  end.

(** [x > y] *)
Definition gt (x y : float) : bool :=
  match x, y with
  | NaN, _ | _, NaN => false
  | Inf a, Inf b => negb a && b
  | Inf a, Fin _ => negb a
  | Fin _, Inf b => b
  | Fin a, Fin b => b <? a
  end.

Definition zero_division (what : string) : exn :=
  Exn ZeroDivisionError (PyStr.u what).

(** [x % y] on floats ([float_rem]). *)
Definition rem (x y : float) : res float :=
  if is_zero y then Exc (zero_division "float modulo")
  else
    let m := fmod x y in
    Ret (if is_zero m then Fin 0
         else if negb (eqb (ltz y) (ltz m)) then add m y else m).

(** [x // y] on floats ([float_floor_div]). *)
Definition floordiv (x y : float) : res float :=
  if is_zero y then Exc (zero_division "float divmod()")
  else
    let m := fmod x y in
    let d := div (sub x m) y in
    let d := if negb (is_zero m) && negb (eqb (ltz y) (ltz m))
             then sub d (Fin one) else d in
    Ret (if is_zero d then Fin 0
         else
           let f := floor d in
           if gt (sub d f) (Fin (one / 2)) then add f (Fin one) else f).

(** [int(x)]: truncation towards zero. *)
Definition to_int (x : float) : res Z :=
  match x with
  | Fin n => Ret (Z.quot n one)
  | Inf _ =>
    Exc (Exn OverflowError (PyStr.u "cannot convert float infinity to integer"))
  | NaN => Exc (Exn ValueError (PyStr.u "cannot convert float NaN to integer"))
  end.

(** [a / b] on ints: the exact quotient, rounded once. *)
Definition int_truediv (a b : Z) : res float :=
  if b =? 0 then Exc (zero_division "division by zero")
  else
    match round (a * one * Z.sgn b) (Z.abs b) with
    | Fin n => Ret (Fin n)
    | _ =>
      Exc (Exn OverflowError
             (PyStr.u "integer division result too large for a float"))
    end.

End PyFloat.

(** ** Timestamps and subtitles *)

Import PyStr.

(** [format_timestamp(seconds)]: "Convierte segundos a formato SRT". *)
Definition format_timestamp (seconds : PyFloat.float) : res str :=
  h ← PyFloat.floordiv seconds (PyFloat.of_int 3600);
  hours ← PyFloat.to_int h;
  r ← PyFloat.rem seconds (PyFloat.of_int 3600);
  m ← PyFloat.floordiv r (PyFloat.of_int 60);
  minutes ← PyFloat.to_int m;
  s ← PyFloat.rem seconds (PyFloat.of_int 60);
  secs ← PyFloat.to_int s;
  f ← PyFloat.rem seconds (PyFloat.of_int 1);
  milliseconds ← PyFloat.to_int (PyFloat.mul f (PyFloat.of_int 1000));
  Ret (format_0d 2 hours ++ u ":" ++ format_0d 2 minutes ++ u ":"
       ++ format_0d 2 secs ++ u "," ++ format_0d 3 milliseconds).

(** One entry of a segment's ['words'] list: the keys ['word'], ['start']
    and ['end'] the segmenter reads. *)
Record timed_word : Type := TimedWord {
  w_word : str;
  w_start : PyFloat.float;
  w_end : PyFloat.float;
}.

(** A transcription segment: its ['words'] list when the key is there. *)
Record segment : Type := Segment {
  seg_words : option (list timed_word);
}.

Definition index_error : exn :=
  Exn IndexError (u "list index out of range").

(** [l[i]], an index below zero counting from the end. *)
Definition py_index {A : Type} (l : list A) (i : Z) : res A :=
  let n := Z.of_nat (length l) in
  let j := if i <? 0 then i + n else i in
  if (0 <=? j) && (j <? n) then
    match l !! Z.to_nat j with
    | Some a => Ret a
    | None => Exc index_error
    end
  else Exc index_error.

(** The variables of the inner loop of [create_srt_content]. *)
Record line_state : Type := LineState {
  ln_i : Z;
  ln_word_count : Z;
  ln_line_words : list str;
}.

(** The variables that live across the cues of a segment. *)
Record srt_state : Type := SrtState {
  st_i : Z;
  st_srt_content : list str;
  st_subtitle_index : Z;
}.

(** [while i < len(words) and word_count < words_per_line: ...] *)
Definition collect_line (fuel : nat) (words : list timed_word)
    (words_per_line : Z) (i : Z) : res line_state :=
  while fuel
    (λ s, (ln_i s <? Z.of_nat (length words))
          && (ln_word_count s <? words_per_line))
    (λ s,
       w ← py_index words (ln_i s);
       Ret {| ln_i := ln_i s + 1;
              ln_word_count := ln_word_count s + 1;
              ln_line_words := ln_line_words s ++ [strip (w_word w)] |})
    {| ln_i := i; ln_word_count := 0; ln_line_words := [] |}.

(** The body of [while i < len(words): ...]: one cue. *)
Definition emit_cue (fuel : nat) (words : list timed_word)
    (words_per_line : Z) (s : srt_state) : res srt_state :=
  first ← py_index words (st_i s);
  let start_time := w_start first in
  ln ← collect_line fuel words words_per_line (st_i s);
  let i := ln_i ln in
  end_time ← (if 0 <? i then w_end <$> py_index words (i - 1)
              else Ret (PyFloat.add start_time (PyFloat.dec 1 2)));
  let text := join (u " ") (ln_line_words ln) in
  start_formatted ← format_timestamp start_time;
  end_formatted ← format_timestamp end_time;
  Ret {| st_i := i;
         st_srt_content :=
           st_srt_content s
           ++ [str_of_int (st_subtitle_index s);
               start_formatted ++ u " --> " ++ end_formatted;
               text;
               []];
         st_subtitle_index := st_subtitle_index s + 1 |}.

(** The lines [srt_content] holds when the loops are over. *)
Definition srt_lines (fuel : nat) (segments : list segment)
    (words_per_line : Z) : res (list str) :=
  st_srt_content <$>
  for_each segments
    (λ segment s,
       match seg_words segment with
       | None => Ret s
       | Some words =>
         while fuel (λ s, st_i s <? Z.of_nat (length words))
           (emit_cue fuel words words_per_line)
           {| st_i := 0;
              st_srt_content := st_srt_content s;
              st_subtitle_index := st_subtitle_index s |}
       end)
    {| st_i := 0; st_srt_content := []; st_subtitle_index := 1 |}.

(** [create_srt_content(segments, words_per_line)]: "Crear contenido SRT
    con palabras personalizables". Every loop may take [fuel] turns. *)
Definition create_srt_content (fuel : nat) (segments : list segment)
    (words_per_line : Z) : res str :=
  join [10] <$> srt_lines fuel segments words_per_line.

(** ** The progress registry *)

(** What a progress record holds under a key. *)
Inductive value : Type :=
  | VStr (s : str)
  | VInt (n : Z).

#[global] Instance value_eq_dec : EqDecision value.
Proof. solve_decision. Defined.

(** A progress record, such as
    [{'status': 'uploading', 'progress': 10, 'message': ...}]. *)
Abbreviation record := (gmap (list Z) value).

(** The dict [progress_queue], from task id to progress record. *)
Abbreviation registry := (gmap (list Z) record).

(** A dict display [{k1: v1, k2: v2, ...}]. *)
Definition dict (kvs : list (string * value)) : record :=
  list_to_map (prod_map u id <$> kvs).

(** The thread targets of the server, with their arguments. *)
Inductive thread : Type :=
  | Transcription (audio_path model_size : str) (language : option str)
      (words_per_line : Z) (task_id : str)
  | CleanupTempFile (temp_path task_id : str).

(** What [model.transcribe] returns: ['segments'], and ['language'] when
    the key is there. *)
Record transcription : Type := Transcription_result {
  tr_segments : list segment;
  tr_language : option str;
}.

(** The calls a job runner makes, one for each of its phases:
    [whisper.load_model(model_size)], [model.transcribe(audio_path, ...)]
    and [create_srt_content(result['segments'], words_per_line)]. *)
Inductive call (model : Type) : Type :=
  | Load_model (model_size : str)
  | Model_transcribe (m : model) (audio_path : str) (language : option str)
  | Create_srt_content (segments : list segment) (words_per_line : Z).
Arguments Load_model {model} _.
Arguments Model_transcribe {model} _ _ _.
Arguments Create_srt_content {model} _ _.

(** The Whisper library: [whisper.load_model(model_size)] and
    [model.transcribe(audio_path, language=language, word_timestamps=True,
    verbose=False)]. Either may raise, or never return ([Fuel]), and what
    a call does may depend on the calls entered before it (the first
    argument): a call that raised once need not raise the next time. *)
Record engine (model : Type) : Type := Engine {
  load_model : list (call model) → str → res model;
  transcribe :
    list (call model) → model → str → option str → res transcription;
}.
Arguments load_model {model} _ _ _.
Arguments transcribe {model} _ _ _ _ _.

(** The state all threads share: the two module-level dicts, the threads
    started so far, every assignment [progress_queue[task_id] = r] made so
    far (a ghost) and every call of the three above entered so far,
    whatever its outcome, oldest first. *)
Record world (model : Type) : Type := World {
  progress_queue : registry;
  model_cache : gmap (list Z) model;
  started : list thread;
  history : list (list Z * record);
  calls : list (call model);
}.
Arguments World {model} _ _ _ _ _.
Arguments progress_queue {model} _.
Arguments model_cache {model} _.
Arguments started {model} _.
Arguments history {model} _.
Arguments calls {model} _.

(** Code that reads and writes the shared state and may raise: the state
    it leaves is kept whatever the outcome. *)
Definition io (W A : Type) : Type := W → W * res A.

#[global] Instance io_mret {W} : MRet (io W) := λ A a w, (w, Ret a).
#[global] Instance io_mbind {W} : MBind (io W) := λ A B k m w,
  match m w with
  | (w', Ret a) => k a w'
  | (w', Exc e) => (w', Exc e)
  | (w', Fuel) => (w', Fuel)
  end.

(** A computation that does not touch the state. *)
Definition lift {W A : Type} (r : res A) : io W A := λ w, (w, r).

(** [try: body  except Exception as e: handler(e)] *)
Definition try_except {W A : Type} (body : io W A) (handler : exn → io W A)
    : io W A :=
  λ w, match body w with
       | (w', Exc e) => handler e w'
       | r => r
       end.

Section Server.

Context {model : Type} (whisper : engine model).

(** [progress_queue[task_id] = r] *)
Definition set_progress (task_id : str) (r : record) : io (world model) () :=
  λ w, (World (<[task_id := r]> (progress_queue w)) (model_cache w)
          (started w) (history w ++ [(task_id, r)]) (calls w),
        Ret ()).

(** The entry into a call: its outcome, when there is one, comes after. *)
Definition enter (c : call model) : io (world model) () :=
  λ w, (World (progress_queue w) (model_cache w) (started w) (history w)
          (calls w ++ [c]),
        Ret ()).

(** [whisper.load_model(model_size)] *)
Definition whisper_load_model (model_size : str) : io (world model) model :=
  λ w, ((enter (Load_model model_size) w).1,
        load_model whisper (calls w) model_size).

(** [model.transcribe(audio_path, language=language, word_timestamps=True,
    verbose=False)] *)
Definition model_transcribe (m : model) (audio_path : str)
    (language : option str) : io (world model) transcription :=
  λ w, ((enter (Model_transcribe m audio_path language) w).1,
        transcribe whisper (calls w) m audio_path language).

(** [create_srt_content(segments, words_per_line)], called by the runner. *)
Definition call_create_srt_content (fuel : nat) (segments : list segment)
    (words_per_line : Z) : io (world model) str :=
  enter (Create_srt_content segments words_per_line);;
  lift (create_srt_content fuel segments words_per_line).

(** [model_cache[model_size] = m] *)
Definition set_model (model_size : str) (m : model) : io (world model) () :=
  λ w, (World (progress_queue w) (<[model_size := m]> (model_cache w))
          (started w) (history w) (calls w),
        Ret ()).

(** [get_model(model_size)]: "Obtener modelo desde cache o cargarlo". *)
Definition get_model (model_size : str) : io (world model) model :=
  λ w, match model_cache w !! model_size with
       | Some m => (w, Ret m)
       | None =>
         (m ← whisper_load_model model_size;
          set_model model_size m;;
          mret m) w
       end.

(** The records the runner assigns to [progress_queue[task_id]]. *)
Definition loading_record (model_size : str) : record :=
  dict [("status", VStr (u "loading_model"));
        ("progress", VInt 20);
        ("message", VStr (u "Cargando modelo " ++ model_size ++ u "..."))].

Definition transcribing_record : record :=
  dict [("status", VStr (u "transcribing"));
        ("progress", VInt 40);
        ("message", VStr (u "Iniciando transcripción..."))].

Definition generating_record : record :=
  dict [("status", VStr (u "generating_srt"));
        ("progress", VInt 80);
        ("message", VStr (u "Generando archivo SRT..."))].

Definition completed_record (srt_content : str) (result : transcription)
    : record :=
  dict [("status", VStr (u "completed"));
        ("progress", VInt 100);
        ("message", VStr (u "Transcripción completada"));
        ("result", VStr srt_content);
        ("segments_count", VInt (Z.of_nat (length (tr_segments result))));
        ("detected_language",
         VStr (default (u "unknown") (tr_language result)))].

Definition error_record (e : exn) : record :=
  dict [("status", VStr (u "error"));
        ("progress", VInt 0);
        ("message", VStr (u "Error: " ++ exn_str e))].

(** [transcribe_audio_with_progress(audio_path, model_size, language,
    words_per_line, task_id)]: "Transcribir audio con seguimiento de
    progreso". *)
Definition transcribe_audio_with_progress (fuel : nat)
    (audio_path model_size : str) (language : option str)
    (words_per_line : Z) (task_id : str) : io (world model) () :=
  try_except
    (set_progress task_id (loading_record model_size);;
     model ← get_model model_size;
     set_progress task_id transcribing_record;;
     result ← model_transcribe model audio_path language;
     set_progress task_id generating_record;;
     srt_content ←
       call_create_srt_content fuel (tr_segments result) words_per_line;
     set_progress task_id (completed_record srt_content result))
    (λ e, set_progress task_id (error_record e)).

(** *** The HTTP handlers *)

(** What a handler reads of a request: the path, two headers when they
    are there, and the octets the connection delivers. *)
Record request : Type := Request {
  req_path : str;
  req_content_length : option str;
  req_content_type : option str;
  req_body : bytes;
}.

(** What a handler draws from its surroundings: the text of
    [uuid.uuid4()], and the temporary file written with the audio (its
    name, or the error of the file system). *)
Record environment : Type := Environment {
  env_uuid4 : str;
  env_temp_file : bytes → res str;
}.

(** [send_error(code, message)], or a JSON body sent with a status. *)
Inductive response : Type :=
  | SendError (code : Z) (message : str)
  | SendJson (code : Z) (body : record).

(** [int(s)] with its exception (the message does not quote [s]). *)
Definition py_int (s : str) : res Z :=
  match int_of_str s with
  | Some n => Ret n
  | None => Exc (Exn ValueError (u "invalid literal for int() with base 10"))
  end.

(** [b.decode().strip()] *)
Definition decode_strip (b : bytes) : res str :=
  match utf8_decode b with
  | Some s => Ret (strip s)
  | None =>
    Exc (Exn UnicodeDecodeError (u "'utf-8' codec can't decode bytes"))
  end.

(** The variables the loop over the parts of the form assigns. *)
Record form : Type := Form {
  f_audio_data : option bytes;
  f_words_per_line : Z;
  f_model_size : str;
  f_language : option str;
  f_task_id : str;
}.

(** The quotation mark. *)
Definition dq : bytes := [34].

(** [part[header_end + 4:]] where [header_end = part.find(b'\r\n\r\n')],
    when that is not [-1]. *)
Definition part_payload (part : bytes) : option bytes :=
  let header_end := find [13; 10; 13; 10] part in
  if header_end =? -1 then None else Some (slice_from (header_end + 4) part).

Definition has_name (name : string) (part : bytes) : bool :=
  contains (octets "name=" ++ dq ++ octets name ++ dq) part.

(** The body of [for part in parts: ...]. *)
Definition read_part (part : bytes) (f : form) : res form :=
  if contains (octets "Content-Disposition: form-data") part then
    if has_name "audio" part && contains (octets "filename=") part then
      match part_payload part with
      | None => Ret f
      | Some data =>
        let data :=
          if ends_with [13; 10] data
          then take (length data - 2) data else data in
        Ret (Form (Some data) (f_words_per_line f) (f_model_size f)
               (f_language f) (f_task_id f))
      end
    else if has_name "words_per_line" part then
      match part_payload part with
      | None => Ret f
      | Some b =>
        value ← decode_strip b;
        n ← (if isdigit value then py_int value else Ret 6);
        Ret (Form (f_audio_data f) n (f_model_size f) (f_language f) (f_task_id f))
      end
    else if has_name "model_size" part then
      match part_payload part with
      | None => Ret f
      | Some b =>
        v ← decode_strip b;
        Ret (Form (f_audio_data f) (f_words_per_line f) v (f_language f)
               (f_task_id f))
      end
    else if has_name "language" part then
      match part_payload part with
      | None => Ret f
      | Some b =>
        lang ← decode_strip b;
        Ret (if bool_decide (lang = u "auto") then f
             else Form (f_audio_data f) (f_words_per_line f) (f_model_size f)
                    (Some lang) (f_task_id f))
      end
    else if has_name "task_id" part then
      match part_payload part with
      | None => Ret f
      | Some b =>
        v ← decode_strip b;
        Ret (Form (f_audio_data f) (f_words_per_line f) (f_model_size f)
               (f_language f) v)
      end
    else Ret f
  else Ret f.

(** The record [handle_transcribe] assigns to [progress_queue[task_id]]. *)
Definition uploading_record : record :=
  dict [("status", VStr (u "uploading"));
        ("progress", VInt 10);
        ("message", VStr (u "Archivo recibido, preparando..."))].

(** The record [serve_progress] answers for an id it does not find. *)
Definition not_found_record : record :=
  dict [("status", VStr (u "not_found"));
        ("progress", VInt 0);
        ("message", VStr (u "Tarea no encontrada"))].

(** [thread.start()] *)
Definition start_thread (t : thread) : io (world model) () :=
  λ w, (World (progress_queue w) (model_cache w) (started w ++ [t])
          (history w) (calls w),
        Ret ()).

(** [self.rfile.read(n)]. *)
Definition rfile_read (n : Z) (body : bytes) : bytes :=
  if n <? 0 then body else take (Z.to_nat n) body.

(** [handle_transcribe()]: "Manejar la transcripción de audio de forma
    asíncrona". *)
Definition handle_transcribe (env : environment) (req : request)
    : io (world model) response :=
  try_except
    (content_length ←
       lift (match req_content_length req with
             | Some s => py_int s
             | None => Ret 0
             end);
     if content_length =? 0 then mret (SendError 400 (u "No hay contenido"))
     else
       let post_data := rfile_read content_length (req_body req) in
       let content_type := default [] (req_content_type req) in
       boundary ←
         lift (if contains (u "boundary=") content_type then
                 match utf8_encode
                         (default [] (split (u "boundary=") content_type
                                      !! 1%nat)) with
                 | Some b => Ret (Some b)
                 | None =>
                   Exc (Exn ValueError
                          (u "'utf-8' codec can't encode character"))
                 end
               else Ret None);
       match boundary with
       | None | Some [] => mret (SendError 400 (u "Boundary no encontrado"))
       | Some boundary =>
         let parts := split (octets "--" ++ boundary) post_data in
         f ← lift (for_each parts read_part
                     (Form None 6 (u "medium") None (env_uuid4 env)));
         match f_audio_data f with
         | None | Some [] =>
           mret (SendError 400 (u "Archivo de audio no encontrado"))
         | Some audio =>
           set_progress (f_task_id f) uploading_record;;
           temp_path ← lift (env_temp_file env audio);
           start_thread
             (Transcription temp_path (f_model_size f) (f_language f)
                (f_words_per_line f) (f_task_id f));;
           start_thread (CleanupTempFile temp_path (f_task_id f));;
           mret (SendJson 200
                   (dict [("status", VStr (u "started"));
                          ("task_id", VStr (f_task_id f));
                          ("message", VStr (u "Transcripción iniciada"))]))
         end
       end)
    (λ e, mret (SendError 500 (u "Error interno: " ++ exn_str e))).

(** [serve_progress()]: "Servir el progreso de una transcripción". *)
Definition serve_progress (path : str) (w : world model) : response :=
  let task_id := default [] (last (split (u "/") path)) in
  SendJson 200
    (match progress_queue w !! task_id with
     | Some progress_data => progress_data
     | None => not_found_record
     end).

(** The end of [cleanup_temp_file], ten minutes after the request:
    [if task_id in progress_queue: del progress_queue[task_id]]. *)
Definition forget_task (task_id : str) (w : world model) : world model :=
  World (delete task_id (progress_queue w)) (model_cache w) (started w)
    (history w) (calls w).

(** What a started thread runs: its target on its arguments (of
    [cleanup_temp_file], the end that touches the registry). *)
Definition run_thread (fuel : nat) (t : thread) : io (world model) () :=
  match t with
  | Transcription audio_path model_size language words_per_line task_id =>
    transcribe_audio_with_progress fuel audio_path model_size language
      words_per_line task_id
  | CleanupTempFile _ task_id => λ w, (forget_task task_id w, Ret ())
  end.

End Server.

(** *** The periodic cleanup *)

(** [int(task_id.split('_')[0]) / 1000 if '_' in task_id
     else int(task_id) / 1000] *)
Definition task_time (task_id : str) : res PyFloat.float :=
  n ← (if contains (u "_") task_id
       then py_int (default [] (head (split (u "_") task_id)))
       else py_int task_id);
  PyFloat.int_truediv n 1000.

(** Whether the sweep at [current_time] puts [task_id] on
    [tasks_to_remove]; an exception on the way is swallowed
    ([except: continue]). *)
Definition to_remove (current_time : PyFloat.float) (task_id : str) : bool :=
  match task_time task_id with
  | Ret t =>
    PyFloat.gt (PyFloat.sub current_time t) (PyFloat.of_int 1800)
  | _ => false
  end.

(** One turn of the loop of [cleanup_old_tasks], "Limpiar tareas antiguas
    periódicamente", at the time [time.time()] gave: collect, then
    [del progress_queue[task_id]] for every collected id. *)
Definition cleanup_sweep (current_time : PyFloat.float) (q : registry)
    : registry :=
  let tasks_to_remove :=
    List.filter (to_remove current_time) (elements (dom q)) in
  foldl (λ q task_id, delete task_id q) q tasks_to_remove.

(** [cleanup_old_tasks()], cut after the sweeps at the given times. *)
Definition cleanup_old_tasks (times : list PyFloat.float) (q : registry)
    : registry :=
  foldl (λ q t, cleanup_sweep t q) q times.

(** ** Sample data *)

Definition crlf : bytes := [13; 10].

(** A part of a multipart body that carries a field. *)
Definition form_field (name value : string) : bytes :=
  crlf ++ octets "Content-Disposition: form-data; name=" ++ dq ++ octets name
  ++ dq ++ crlf ++ crlf ++ octets value ++ crlf.

(** A part that carries a file. *)
Definition form_file (name filename : string) (data : bytes) : bytes :=
  crlf ++ octets "Content-Disposition: form-data; name=" ++ dq ++ octets name
  ++ dq ++ octets "; filename=" ++ dq ++ octets filename ++ dq ++ crlf
  ++ octets "Content-Type: audio/wav" ++ crlf ++ crlf ++ data ++ crlf.

(** A [POST /transcribe] with an audio file and the given fields, the
    boundary being [XyZ]. *)
Definition sample_request (fields : list (string * string)) : request :=
  let parts :=
    form_file "audio" "a.wav" (octets "RIFF")
    :: ((λ kv, form_field kv.1 kv.2) <$> fields) in
  let body :=
    concat ((λ p, octets "--XyZ" ++ p) <$> parts) ++ octets "--XyZ--" ++ crlf in
  {| req_path := u "/transcribe";
     req_content_length := Some (str_of_int (Z.of_nat (length body)));
     req_content_type := Some (u "multipart/form-data; boundary=XyZ");
     req_body := body |}.

Definition sample_environment : environment :=
  {| env_uuid4 := u "123e4567-e89b-42d3-a456-426614174000";
     env_temp_file := λ _, Ret (u "/tmp/tmpabc.tmp") |}.

(** The server just started. *)
Definition fresh_world : world () := World ∅ ∅ [] [] [].

(** An engine whose model cannot be loaded. *)
Definition failing_engine : engine () :=
  {| load_model := λ _ _, Exc (Exn RuntimeError (u "model not found"));
     transcribe := λ _ _ _ _, Ret (Transcription_result [] None) |}.

(** ** Notions the statements are written with *)

(** A time [format_timestamp] renders without raising. *)
Definition renderable (x : PyFloat.float) : Prop :=
  ∃ s, format_timestamp x = Ret s.

(** The rendering of a time, empty where [format_timestamp] raises. *)
Definition stamp (x : PyFloat.float) : str :=
  match format_timestamp x with
  | Ret s => s
  | _ => []
  end.

(** A subtitle cue: index, start, end, text. *)
Record cue : Type := Cue {
  cue_index : Z;
  cue_start : PyFloat.float;
  cue_end : PyFloat.float;
  cue_text : str;
}.

(** The four lines of a cue in the SRT text. *)
Definition render_cue (c : cue) : list str :=
  [str_of_int (cue_index c);
   stamp (cue_start c) ++ u " --> " ++ stamp (cue_end c);
   cue_text c;
   []].

(** The text of a word as a cue shows it. *)
Definition shown (w : timed_word) : str := strip (w_word w).

Definition group_start (g : list timed_word) : PyFloat.float :=
  default (PyFloat.Fin 0) (w_start <$> head g).

Definition group_end (g : list timed_word) : PyFloat.float :=
  default (PyFloat.Fin 0) (w_end <$> last g).

(** The cue of a run of words. *)
Definition cue_of (index : Z) (g : list timed_word) : cue :=
  Cue index (group_start g) (group_end g) (join (u " ") (shown <$> g)).

(** The cues of successive runs, numbered from [index]. *)
Fixpoint number (index : Z) (gs : list (list timed_word)) : list cue :=
  match gs with
  | [] => []
  | g :: r => cue_of index g :: number (index + 1) r
  end.

(** [l] cut into runs of [k] elements, the last one shorter when [k] does
    not divide the length ([n] bounds the number of runs). *)
Fixpoint chunks_upto {A : Type} (n k : nat) (l : list A) : list (list A) :=
  match n with
  | O => []
  | S n' =>
    match l with
    | [] => []
    | _ => take k l :: chunks_upto n' k (drop k l)
    end
  end.

Definition chunks {A : Type} (k : nat) (l : list A) : list (list A) :=
  chunks_upto (length l) k l.

(** The runs of words of a segment, none when it has no ['words']. *)
Definition segment_groups (words_per_line : Z) (s : segment)
    : list (list timed_word) :=
  match seg_words s with
  | None => []
  | Some ws => chunks (Z.to_nat words_per_line) ws
  end.

(** The number of cues a segment of [n] words gives. *)
Definition cue_count (words_per_line : Z) (s : segment) : Z :=
  match seg_words s with
  | None => 0
  | Some ws =>
    (Z.of_nat (length ws) + words_per_line - 1) `div` words_per_line
  end.

(** The longest ['words'] list of the segments. *)
Definition max_words (segments : list segment) : nat :=
  foldr (λ s m, length (default [] (seg_words s)) `max` m)%nat 0%nat segments.

(** Every time of the words is rendered without raising. *)
Definition renderable_word (w : timed_word) : Prop :=
  renderable (w_start w) ∧ renderable (w_end w).

Definition renderable_segment (s : segment) : Prop :=
  Forall renderable_word (default [] (seg_words s)).

(** The cues written one after the other, as the loops do it: the lines
    so far and the next index go in and come out. *)
Fixpoint write_groups (gs : list (list timed_word)) (s : list str * Z)
    : res (list str * Z) :=
  match gs with
  | [] => Ret s
  | g :: r =>
    sf ← format_timestamp (group_start g);
    ef ← format_timestamp (group_end g);
    write_groups r
      (s.1 ++ [str_of_int s.2; sf ++ u " --> " ++ ef;
               join (u " ") (shown <$> g); []],
       s.2 + 1)
  end.

(** ** The segmenter: proofs *)

Section Segmenter.

Implicit Types (ws pre rest : list timed_word) (w : timed_word).
Implicit Types (segments : list segment) (fuel : nat).

Lemma py_index_nat {A : Type} (l : list A) (n : nat) (a : A) :
  l !! n = Some a → py_index l (Z.of_nat n) = Ret a.
Proof.
  intros Hl. unfold py_index.
  pose proof (lookup_lt_Some _ _ _ Hl) as Hlt.
  destruct (Z.ltb_spec (Z.of_nat n) 0) as [?|_]; [lia|].
  destruct (Z.leb_spec 0 (Z.of_nat n)) as [_|?]; [|lia].
  destruct (Z.ltb_spec (Z.of_nat n) (Z.of_nat (length l))) as [_|?]; [|lia].
  simpl. by rewrite Nat2Z.id, Hl.
Qed.

Lemma py_index_app {A : Type} (pre rest : list A) (a : A) :
  py_index (pre ++ a :: rest) (Z.of_nat (length pre)) = Ret a.
Proof. apply py_index_nat. by rewrite list_lookup_middle. Qed.

(** The inner loop takes the next [min (words_per_line - word_count)
    (len rest)] words. *)
Lemma collect_loop (words_per_line : Z) ws rest :
  ∀ pre (c : Z) (acc : list str) fuel,
    ws = pre ++ rest →
    (length rest ≤ fuel)%nat →
    let k := Z.to_nat (Z.min (words_per_line - c) (Z.of_nat (length rest))) in
    while fuel
      (λ s, (ln_i s <? Z.of_nat (length ws))
            && (ln_word_count s <? words_per_line))
      (λ s,
         w ← py_index ws (ln_i s);
         Ret {| ln_i := ln_i s + 1;
                ln_word_count := ln_word_count s + 1;
                ln_line_words := ln_line_words s ++ [strip (w_word w)] |})
      {| ln_i := Z.of_nat (length pre); ln_word_count := c;
         ln_line_words := acc |}
    = Ret {| ln_i := Z.of_nat (length pre) + Z.of_nat k;
             ln_word_count := c + Z.of_nat k;
             ln_line_words := acc ++ (shown <$> take k rest) |}.
Proof.
  induction rest as [|w r IH]; intros pre c acc fuel Hws Hfuel; cbv zeta;
    pose proof (f_equal length Hws) as Hlen; rewrite length_app in Hlen;
    cbn [length] in *.
  - replace (Z.to_nat (Z.min (words_per_line - c) (Z.of_nat 0)))
      with 0%nat by lia.
    cbn [take fmap list_fmap Z.of_nat]. rewrite !Z.add_0_r, app_nil_r.
    destruct (Z.ltb_spec (Z.of_nat (length pre)) (Z.of_nat (length ws)))
      as [?|Hge]; [lia|].
    destruct fuel; cbn [while ln_i];
      by rewrite (proj2 (Z.ltb_ge _ _) Hge).
  - destruct fuel as [|fuel]; [lia|].
    cbn [while ln_i ln_word_count ln_line_words].
    destruct (Z.ltb_spec (Z.of_nat (length pre)) (Z.of_nat (length ws)))
      as [_|?]; [|lia].
    destruct (Z.ltb_spec c words_per_line) as [Hc|Hc]; cbn [andb].
    + rewrite Hws at 1. rewrite py_index_app.
      cbn [mbind res_mbind res_bind].
      replace (Z.of_nat (length pre) + 1)
        with (Z.of_nat (length (pre ++ [w])))
        by (rewrite length_app; simpl; lia).
      rewrite (IH (pre ++ [w]))
        by first [by rewrite <- app_assoc | lia].
      replace (Z.to_nat (Z.min (words_per_line - c)
                           (Z.of_nat (S (length r)))))
        with (S (Z.to_nat (Z.min (words_per_line - (c + 1))
                             (Z.of_nat (length r))))) by lia.
      cbn [take fmap list_fmap]. rewrite length_app. cbn [length].
      f_equal. f_equal; [lia|lia|].
      by rewrite <- app_assoc.
    + replace (Z.to_nat (Z.min (words_per_line - c)
                           (Z.of_nat (S (length r))))) with 0%nat by lia.
      cbn [take fmap list_fmap Z.of_nat]. by rewrite !Z.add_0_r, app_nil_r.
Qed.

Lemma last_take {A : Type} (l : list A) (k : nat) :
  (1 ≤ k ≤ length l)%nat → last (take k l) = l !! (k - 1)%nat.
Proof.
  intros Hk. rewrite last_lookup, length_take.
  replace (Init.Nat.pred (k `min` length l)) with (k - 1)%nat by lia.
  apply lookup_take_lt. lia.
Qed.

Lemma take_min_length {A : Type} (l : list A) (k : nat) :
  take (k `min` length l) l = take k l.
Proof.
  destruct (Nat.le_gt_cases k (length l)) as [H|H].
  - by rewrite Nat.min_l.
  - rewrite Nat.min_r by lia. by rewrite !take_ge by lia.
Qed.

(** One turn of the outer loop writes the cue of the next run of words. *)
Lemma emit_cue_spec (words_per_line : Z) ws pre w r
    (content : list str) (index : Z) fuel :
  1 ≤ words_per_line →
  ws = pre ++ w :: r →
  (length (w :: r) ≤ fuel)%nat →
  let g := take (Z.to_nat words_per_line) (w :: r) in
  emit_cue fuel ws words_per_line
    {| st_i := Z.of_nat (length pre); st_srt_content := content;
       st_subtitle_index := index |}
  = (sf ← format_timestamp (group_start g);
     ef ← format_timestamp (group_end g);
     Ret {| st_i := Z.of_nat (length (pre ++ g));
            st_srt_content :=
              content ++ [str_of_int index; sf ++ u " --> " ++ ef;
                          join (u " ") (shown <$> g); []];
            st_subtitle_index := index + 1 |}).
Proof.
  intros Hwpl Hws Hfuel g. unfold emit_cue.
  cbn [st_i st_srt_content st_subtitle_index].
  rewrite Hws at 1. rewrite py_index_app.
  cbn [mbind res_mbind res_bind].
  unfold collect_line.
  rewrite (collect_loop words_per_line ws (w :: r) pre 0 [] fuel Hws Hfuel).
  cbn [mbind res_mbind res_bind ln_i ln_line_words].
  rewrite Z.sub_0_r, app_nil_l.
  set (k := Z.to_nat (Z.min words_per_line (Z.of_nat (length (w :: r))))).
  assert (Hk : (1 ≤ k ≤ length (w :: r))%nat) by (subst k; cbn [length]; lia).
  assert (Hg : take k (w :: r) = g).
  { subst k g.
    replace (Z.to_nat (Z.min words_per_line (Z.of_nat (length (w :: r)))))
      with (Z.to_nat words_per_line `min` length (w :: r))%nat by lia.
    apply take_min_length. }
  assert (Hlg : length g = k) by (rewrite <- Hg, length_take; lia).
  rewrite Hg.
  destruct (Z.ltb_spec 0 (Z.of_nat (length pre) + Z.of_nat k)) as [_|?];
    [|lia].
  assert (Hlast : last g = Some (default w (last g)) ∧
                  ws !! (length pre + (k - 1))%nat = last g).
  { rewrite <- Hg. rewrite last_take by done. rewrite Hws.
    rewrite lookup_app_r by lia.
    replace (length pre + (k - 1) - length pre)%nat with (k - 1)%nat by lia.
    destruct (lookup_lt_is_Some_2 (w :: r) (k - 1)%nat) as [x Hx]; [lia|].
    by rewrite Hx. }
  destruct Hlast as [Hlast Hlook]. rewrite Hlast in Hlook.
  replace (Z.of_nat (length pre) + Z.of_nat k - 1)
    with (Z.of_nat (length pre + (k - 1))) by lia.
  rewrite (py_index_nat _ _ _ Hlook).
  assert (Hstart : group_start g = w_start w).
  { rewrite <- Hg. destruct k; [lia|]. reflexivity. }
  assert (Hend : group_end g = w_end (default w (last g))).
  { unfold group_end. by rewrite Hlast. }
  rewrite Hstart, Hend, length_app, Hlg, Nat2Z.inj_add. reflexivity.
Qed.

Lemma chunks_upto_length {A : Type} (n k : nat) (l : list A) :
  (1 ≤ k)%nat → (length l ≤ n)%nat → chunks_upto n k l = chunks k l.
Proof.
  intros Hk. unfold chunks.
  remember (length l) as m eqn:Hm.
  revert n l Hm. induction (lt_wf m) as [m _ IH]. intros n l Hm Hn.
  destruct l as [|a l]; [by destruct n; subst|].
  destruct n as [|n]; [simpl in *; lia|]. subst m.
  cbn [chunks_upto length]. f_equal.
  rewrite (IH (length (drop k (a :: l)))) with (n := n) (l := drop k (a :: l));
    [|rewrite length_drop; simpl; lia|done|rewrite length_drop; simpl in *; lia].
  symmetry.
  apply (IH (length (drop k (a :: l))));
    [rewrite length_drop; simpl; lia|done|rewrite length_drop; simpl; lia].
Qed.

Lemma chunks_cons {A : Type} (k : nat) (a : A) (l : list A) :
  (1 ≤ k)%nat →
  chunks k (a :: l) = take k (a :: l) :: chunks k (drop k (a :: l)).
Proof.
  intros Hk. unfold chunks at 1. cbn [length chunks_upto]. f_equal.
  apply chunks_upto_length; [done|]. rewrite length_drop. simpl. lia.
Qed.

(** The loop over the words of a segment writes the cues of its runs. *)
Lemma segment_loop (words_per_line : Z) ws fuel :
  1 ≤ words_per_line →
  (length ws ≤ fuel)%nat →
  ∀ (n : nat) rest pre (content : list str) (index : Z),
    ws = pre ++ rest →
    (length rest ≤ n)%nat →
    while n (λ s, st_i s <? Z.of_nat (length ws))
      (emit_cue fuel ws words_per_line)
      {| st_i := Z.of_nat (length pre); st_srt_content := content;
         st_subtitle_index := index |}
    = ((λ s, {| st_i := Z.of_nat (length ws); st_srt_content := s.1;
                st_subtitle_index := s.2 |}) <$>
       write_groups (chunks (Z.to_nat words_per_line) rest) (content, index)).
Proof.
  intros Hwpl Hfuel n.
  induction n as [|n IH]; intros rest pre content index Hws Hn;
    pose proof (f_equal length Hws) as Hlen; rewrite length_app in Hlen.
  - destruct rest; [|simpl in Hn; lia]. cbn [while st_i].
    rewrite app_nil_r in Hws. subst pre. by rewrite Z.ltb_irrefl.
  - destruct rest as [|w r].
    + cbn [while st_i]. rewrite app_nil_r in Hws. subst pre.
      by rewrite Z.ltb_irrefl.
    + cbn [while st_i]. cbn [length] in *.
      destruct (Z.ltb_spec (Z.of_nat (length pre)) (Z.of_nat (length ws)))
        as [_|?]; [|lia].
      rewrite (emit_cue_spec words_per_line ws pre w r) by (simpl; done || lia).
      rewrite chunks_cons by lia. cbn [write_groups fst snd].
      set (g := take (Z.to_nat words_per_line) (w :: r)).
      destruct (format_timestamp (group_start g)) as [sf| |];
        cbn [mbind res_mbind res_bind fmap res_fmap]; [|done..].
      destruct (format_timestamp (group_end g)) as [ef| |];
        cbn [mbind res_mbind res_bind fmap res_fmap]; [|done..].
      apply IH.
      * rewrite Hws, <- app_assoc. f_equal. subst g.
        by rewrite take_drop.
      * rewrite length_drop. cbn [length]. lia.
Qed.

Lemma write_groups_app (gs1 gs2 : list (list timed_word)) (s : list str * Z) :
  write_groups (gs1 ++ gs2) s = write_groups gs1 s ≫= write_groups gs2.
Proof.
  revert s. induction gs1 as [|g gs1 IH]; intros s; [done|].
  cbn [app write_groups].
  destruct (format_timestamp (group_start g)); [|done..].
  destruct (format_timestamp (group_end g)); [|done..].
  cbn [mbind res_mbind res_bind]. apply IH.
Qed.

(** The loop over the segments writes the cues of all their runs. *)
Lemma segments_loop (words_per_line : Z) fuel segments :
  1 ≤ words_per_line →
  (max_words segments ≤ fuel)%nat →
  ∀ s : srt_state,
    ((λ s, (st_srt_content s, st_subtitle_index s)) <$>
     for_each segments
       (λ segment s,
          match seg_words segment with
          | None => Ret s
          | Some words =>
            while fuel (λ s, st_i s <? Z.of_nat (length words))
              (emit_cue fuel words words_per_line)
              {| st_i := 0;
                 st_srt_content := st_srt_content s;
                 st_subtitle_index := st_subtitle_index s |}
          end) s)
    = write_groups (flat_map (segment_groups words_per_line) segments)
        (st_srt_content s, st_subtitle_index s).
Proof.
  intros Hwpl. induction segments as [|seg segments IH]; intros Hmax s;
    [done|].
  cbn [max_words foldr] in Hmax. fold (max_words segments) in Hmax.
  cbn [for_each flat_map]. rewrite write_groups_app.
  assert (Hg : segment_groups words_per_line seg
               = match seg_words seg with
                 | None => []
                 | Some ws => chunks (Z.to_nat words_per_line) ws
                 end) by done.
  rewrite Hg. clear Hg.
  destruct (seg_words seg) as [ws|] eqn:Hseg; simpl in Hmax.
  - rewrite (segment_loop words_per_line ws fuel Hwpl ltac:(lia)
               fuel ws [] _ _ eq_refl ltac:(lia)).
    destruct (write_groups (chunks (Z.to_nat words_per_line) ws)
                (st_srt_content s, st_subtitle_index s)) as [[c i]| |];
      cbn [fmap res_fmap mbind res_mbind res_bind fst snd]; [|done..].
    apply (IH ltac:(lia)
             {| st_i := Z.of_nat (length ws); st_srt_content := c;
                st_subtitle_index := i |}).
  - cbn [write_groups mbind res_mbind res_bind].
    apply (IH ltac:(lia)).
Qed.

(** [srt_lines] in terms of the runs of words. *)
Lemma srt_lines_spec (words_per_line : Z) fuel segments :
  1 ≤ words_per_line →
  (max_words segments ≤ fuel)%nat →
  srt_lines fuel segments words_per_line
  = fst <$> write_groups (flat_map (segment_groups words_per_line) segments)
              ([], 1).
Proof.
  intros Hwpl Hmax. unfold srt_lines.
  pose proof (segments_loop words_per_line fuel segments Hwpl Hmax
                {| st_i := 0; st_srt_content := [];
                   st_subtitle_index := 1 |}) as H.
  cbn [st_srt_content st_subtitle_index] in H. rewrite <- H.
  by destruct (for_each _ _ _).
Qed.

Lemma floordiv_ends (x y : PyFloat.float) : PyFloat.floordiv x y ≠ Fuel.
Proof. unfold PyFloat.floordiv. by destruct (PyFloat.is_zero y). Qed.

Lemma rem_ends (x y : PyFloat.float) : PyFloat.rem x y ≠ Fuel.
Proof. unfold PyFloat.rem. by destruct (PyFloat.is_zero y). Qed.

Lemma to_int_ends (x : PyFloat.float) : PyFloat.to_int x ≠ Fuel.
Proof. by destruct x. Qed.

Ltac step_ends lem :=
  match goal with
  | |- context [mbind _ ?m] =>
    let H := fresh in
    destruct m eqn:H; cbn [mbind res_mbind res_bind];
    [|intros ?; discriminate|exfalso; eapply lem; eassumption]
  end.

(** Rendering a time ends: it returns or raises. *)
Lemma format_timestamp_ends (x : PyFloat.float) : format_timestamp x ≠ Fuel.
Proof.
  unfold format_timestamp.
  step_ends floordiv_ends. step_ends to_int_ends.
  step_ends rem_ends. step_ends floordiv_ends. step_ends to_int_ends.
  step_ends rem_ends. step_ends to_int_ends.
  step_ends rem_ends. step_ends to_int_ends.
  intros ?; discriminate.
Qed.

(** Writing cues ends: it returns or raises. *)
Lemma write_groups_ends (gs : list (list timed_word)) (s : list str * Z) :
  write_groups gs s ≠ Fuel.
Proof.
  revert s. induction gs as [|g gs IH]; intros s; [done|].
  cbn [write_groups].
  step_ends format_timestamp_ends. step_ends format_timestamp_ends.
  apply IH.
Qed.

(** When every time is rendered, the cues are written in full. *)
Lemma write_groups_renderable (gs : list (list timed_word))
    (content : list str) (index : Z) :
  Forall (λ g, renderable (group_start g) ∧ renderable (group_end g)) gs →
  write_groups gs (content, index)
  = Ret (content ++ flat_map render_cue (number index gs),
         index + Z.of_nat (length gs)).
Proof.
  intros Hgs. revert content index.
  induction Hgs as [|g gs [[sf Hs] [ef He]] _ IH]; intros content index.
  - cbn. by rewrite app_nil_r, Z.add_0_r.
  - cbn [write_groups number flat_map length fst snd].
    rewrite Hs, He. cbn [mbind res_mbind res_bind]. rewrite IH.
    unfold render_cue at 2. unfold stamp. cbn [cue_of cue_index cue_start
      cue_end cue_text]. rewrite Hs, He.
    f_equal. f_equal; [by rewrite <- app_assoc|lia].
Qed.

(** *** Cutting a list into runs *)

Lemma chunks_nil {A : Type} (k : nat) : chunks k (@nil A) = [].
Proof. done. Qed.

Lemma chunks_ind {A : Type} (k : nat) (P : list A → list (list A) → Prop) :
  (1 ≤ k)%nat →
  P [] [] →
  (∀ a l, P (drop k (a :: l)) (chunks k (drop k (a :: l))) →
          P (a :: l) (take k (a :: l) :: chunks k (drop k (a :: l)))) →
  ∀ l, P l (chunks k l).
Proof.
  intros Hk Hnil Hcons l.
  remember (length l) as m eqn:Hm. revert l Hm.
  induction (lt_wf m) as [m _ IH]. intros l Hm.
  destruct l as [|a l]; [exact Hnil|].
  rewrite chunks_cons by done. apply Hcons.
  apply (IH (length (drop k (a :: l)))); [|done].
  subst m. rewrite length_drop. simpl. lia.
Qed.

Lemma concat_chunks {A : Type} (k : nat) (l : list A) :
  (1 ≤ k)%nat → concat (chunks k l) = l.
Proof.
  intros Hk. apply (chunks_ind k (λ l gs, concat gs = l)); [done..|].
  intros a l' IH. cbn [concat]. rewrite IH. apply take_drop.
Qed.

(** [ceil (n / k)] runs. *)
Lemma length_chunks {A : Type} (k : nat) (l : list A) :
  (1 ≤ k)%nat →
  Z.of_nat (length (chunks k l))
  = (Z.of_nat (length l) + Z.of_nat k - 1) `div` Z.of_nat k.
Proof.
  intros Hk.
  apply (chunks_ind k (λ l gs, Z.of_nat (length gs)
           = (Z.of_nat (length l) + Z.of_nat k - 1) `div` Z.of_nat k));
    [done| |].
  - cbn [length]. symmetry. apply Z.div_small. lia.
  - intros a l' IH. cbn [length] in *. rewrite Nat2Z.inj_succ, IH.
    rewrite length_drop. cbn [length].
    destruct (Nat.le_gt_cases k (S (length l'))) as [Hle|Hgt].
    + replace (Z.of_nat (S (length l')) + Z.of_nat k - 1)
        with (Z.of_nat (S (length l') - k) + Z.of_nat k - 1
              + 1 * Z.of_nat k) by lia.
      rewrite Z.div_add by lia. lia.
    + replace (S (length l') - k)%nat with 0%nat by lia.
      rewrite (Z.div_small (Z.of_nat 0 + _ - 1)) by lia.
      apply Z.div_unique with (r := Z.of_nat (S (length l')) - 1); lia.
Qed.

(** Every run holds [k] elements, but the last, which holds from 1 to
    [k]. *)
Lemma chunks_sizes {A : Type} (k : nat) (l : list A) :
  (1 ≤ k)%nat →
  ∀ (i : nat) (run : list A),
    chunks k l !! i = Some run →
    if bool_decide (S i = length (chunks k l))
    then (1 ≤ length run ≤ k)%nat
    else length run = k.
Proof.
  intros Hk. revert l.
  refine (chunks_ind k (λ l gs, ∀ i run, gs !! i = Some run →
            if bool_decide (S i = length gs)
            then (1 ≤ length run ≤ k)%nat else length run = k) Hk _ _);
    [done|].
  intros a l' IH i run Hi. cbn [length].
  destruct i as [|i]; cbn in Hi.
  - injection Hi as <-. rewrite length_take. cbn [length].
    case_bool_decide as Hlast; [lia|].
    destruct (chunks k (drop k (a :: l'))) as [|run' gs'] eqn:Hch; [done|].
    assert (Hne : drop k (a :: l') ≠ []) by (intros Hd; by rewrite Hd in Hch).
    assert (length (drop k (a :: l')) ≠ 0)%nat
      by (by destruct (drop k (a :: l'))).
    rewrite length_drop in *. cbn [length] in *. lia.
  - specialize (IH i run Hi).
    case_bool_decide; case_bool_decide; try lia; done.
Qed.

(** *** Joining *)

Lemma join_cons (sep : str) (x : str) (l : list str) :
  l ≠ [] → join sep (x :: l) = x ++ sep ++ join sep l.
Proof. by destruct l. Qed.

Lemma join_app (sep : str) (l1 l2 : list str) :
  l1 ≠ [] → l2 ≠ [] → join sep (l1 ++ l2) = join sep l1 ++ sep ++ join sep l2.
Proof.
  intros H1 H2. induction l1 as [|x l1 IH]; [done|].
  destruct l1 as [|y l1].
  - cbn [app]. by rewrite join_cons.
  - rewrite <- app_comm_cons, !join_cons by done.
    rewrite IH by done. by rewrite <- !app_assoc.
Qed.

Lemma concat_fmap_fmap {A B : Type} (f : A → B) (gs : list (list A)) :
  concat ((λ g : list A, f <$> g) <$> gs) = (f <$> concat gs : list B).
Proof.
  induction gs as [|g gs IH]; [done|].
  cbn [fmap list_fmap concat]. by rewrite fmap_app, <- IH.
Qed.

(** Joining the joined runs is joining all. *)
Lemma join_concat (sep : str) (gs : list (list str)) :
  Forall (λ g, g ≠ []) gs → join sep (join sep <$> gs) = join sep (concat gs).
Proof.
  induction 1 as [|g gs Hg Hgs IH]; [done|].
  cbn [fmap list_fmap concat].
  destruct gs as [|g' gs]; [by rewrite app_nil_r|].
  rewrite join_cons by done. rewrite IH.
  rewrite join_app; [done..|].
  inversion Hgs; subst. cbn [concat]. by destruct g'.
Qed.

(** *** The cues of a run of words *)

Lemma Forall_chunks {A : Type} (P : A → Prop) (k : nat) (l : list A) :
  (1 ≤ k)%nat → Forall P l → Forall (Forall P) (chunks k l).
Proof.
  intros Hk. revert l.
  refine (chunks_ind k (λ l gs, Forall P l → Forall (Forall P) gs) Hk _ _);
    [done|].
  intros a l IH Hl. constructor.
  - by apply Forall_take.
  - apply IH. by apply Forall_drop.
Qed.

Lemma chunks_nonempty {A : Type} (k : nat) (l : list A) :
  (1 ≤ k)%nat → Forall (λ run, run ≠ []) (chunks k l).
Proof.
  intros Hk. revert l.
  refine (chunks_ind k (λ l gs, Forall (λ run, run ≠ []) gs) Hk _ _); [done|].
  intros a l IH. constructor; [|done]. by destruct k; [lia|].
Qed.

Lemma renderable_zero : renderable (PyFloat.Fin 0).
Proof. eexists. vm_compute. reflexivity. Qed.

Lemma renderable_group (g : list timed_word) :
  Forall renderable_word g →
  renderable (group_start g) ∧ renderable (group_end g).
Proof.
  intros Hg. split.
  - destruct g as [|w g]; [apply renderable_zero|].
    inversion Hg as [|? ? [Hs _] _]; subst. exact Hs.
  - unfold group_end. destruct (last g) as [w|] eqn:Hl;
      [|apply renderable_zero].
    apply last_Some in Hl as [g' ->].
    apply Forall_app in Hg as [_ Hw]. inversion Hw as [|? ? [_ He] _]; subst.
    exact He.
Qed.

Lemma renderable_groups (words_per_line : Z) (segments : list segment) :
  1 ≤ words_per_line →
  Forall renderable_segment segments →
  Forall (λ g, renderable (group_start g) ∧ renderable (group_end g))
    (flat_map (segment_groups words_per_line) segments).
Proof.
  intros Hwpl Hsegs. induction Hsegs as [|seg segments Hseg _ IH]; [done|].
  cbn [flat_map]. apply Forall_app. split; [|done].
  unfold segment_groups, renderable_segment in *.
  destruct (seg_words seg) as [ws|]; [|done]. cbn [default] in Hseg.
  eapply Forall_impl; [apply (Forall_chunks renderable_word); [lia|done]|].
  intros g. apply renderable_group.
Qed.

Lemma cue_text_number (index : Z) (gs : list (list timed_word)) :
  cue_text <$> number index gs = (λ g, join (u " ") (shown <$> g)) <$> gs.
Proof.
  revert index. induction gs as [|g gs IH]; intros index; [done|].
  cbn [number fmap list_fmap cue_of cue_text]. f_equal. apply IH.
Qed.

Lemma cue_index_number (index : Z) (gs : list (list timed_word)) :
  cue_index <$> number index gs
  = (λ i, index + Z.of_nat i) <$> seq 0 (length gs).
Proof.
  revert index. induction gs as [|g gs IH]; intros index; [done|].
  cbn [number fmap list_fmap cue_of cue_index length seq].
  f_equal; [lia|]. rewrite IH, <- seq_shift, <- list_fmap_compose.
  apply list_fmap_ext. intros _ i _. simpl. lia.
Qed.

Lemma length_number (index : Z) (gs : list (list timed_word)) :
  length (number index gs) = length gs.
Proof.
  revert index. induction gs as [|g gs IH]; intros index; [done|].
  cbn [number length]. by rewrite IH.
Qed.

(** The output for segments whose times are all rendered. *)
Lemma create_srt_content_spec (words_per_line : Z) fuel segments :
  1 ≤ words_per_line →
  Forall renderable_segment segments →
  (max_words segments ≤ fuel)%nat →
  create_srt_content fuel segments words_per_line
  = Ret (join [10]
           (flat_map render_cue
              (number 1 (flat_map (segment_groups words_per_line) segments)))).
Proof.
  intros Hwpl Hsegs Hfuel. unfold create_srt_content.
  rewrite srt_lines_spec by done.
  rewrite write_groups_renderable by (by apply renderable_groups).
  reflexivity.
Qed.

(** *** Segments without word timestamps *)

Lemma for_each_skip {St : Type} (body : segment → St → res St)
    (segments : list segment) (s : St) :
  (∀ seg s, seg_words seg = None → body seg s = Ret s) →
  for_each segments body s
  = for_each (filter (λ seg, is_Some (seg_words seg)) segments) body s.
Proof.
  intros Hskip. revert s. induction segments as [|seg segments IH]; intros s;
    [done|].
  rewrite filter_cons. destruct (decide (is_Some (seg_words seg))) as [H|H].
  - cbn [for_each]. destruct (body seg s); [|done..].
    cbn [mbind res_mbind res_bind]. apply IH.
  - cbn [for_each]. rewrite Hskip
      by (destruct (seg_words seg); [by destruct H|done]).
    cbn [mbind res_mbind res_bind]. apply IH.
Qed.

Lemma cue_count_groups (words_per_line : Z) (seg : segment) :
  1 ≤ words_per_line →
  Z.of_nat (length (segment_groups words_per_line seg))
  = cue_count words_per_line seg.
Proof.
  intros Hwpl. unfold segment_groups, cue_count.
  destruct (seg_words seg) as [ws|]; [|done].
  rewrite length_chunks by lia. by rewrite Z2Nat.id by lia.
Qed.

(** *** Nothing is consumed when [words_per_line <= 0] *)

Lemma collect_line_stuck (words_per_line : Z) ws fuel (i : Z) :
  words_per_line ≤ 0 →
  collect_line fuel ws words_per_line i
  = Ret {| ln_i := i; ln_word_count := 0; ln_line_words := [] |}.
Proof.
  intros Hwpl. unfold collect_line.
  destruct fuel; cbn [while ln_i ln_word_count];
    destruct (Z.ltb_spec 0 words_per_line); try lia;
    by rewrite andb_false_r.
Qed.

Lemma emit_cue_stuck (words_per_line : Z) w ws fuel
    (content : list str) (index : Z) :
  words_per_line ≤ 0 →
  renderable (w_start w) →
  renderable (PyFloat.add (w_start w) (PyFloat.dec 1 2)) →
  ∃ content',
    emit_cue fuel (w :: ws) words_per_line
      {| st_i := 0; st_srt_content := content; st_subtitle_index := index |}
    = Ret {| st_i := 0; st_srt_content := content';
             st_subtitle_index := index + 1 |}.
Proof.
  intros Hwpl [sf Hsf] [ef Hef]. unfold emit_cue.
  cbn [st_i st_srt_content st_subtitle_index].
  change (py_index (w :: ws) 0) with (Ret w).
  cbn [mbind res_mbind res_bind].
  rewrite collect_line_stuck by done.
  cbn [mbind res_mbind res_bind ln_i ln_line_words].
  rewrite Z.ltb_irrefl. cbn [mbind res_mbind res_bind].
  rewrite Hsf. cbn [mbind res_mbind res_bind].
  rewrite Hef. cbn [mbind res_mbind res_bind].
  by eexists.
Qed.

Lemma segment_loop_stuck (words_per_line : Z) w ws fuel :
  words_per_line ≤ 0 →
  renderable (w_start w) →
  renderable (PyFloat.add (w_start w) (PyFloat.dec 1 2)) →
  ∀ (n : nat) (content : list str) (index : Z),
    while n (λ s, st_i s <? Z.of_nat (length (w :: ws)))
      (emit_cue fuel (w :: ws) words_per_line)
      {| st_i := 0; st_srt_content := content; st_subtitle_index := index |}
    = Fuel.
Proof.
  intros Hwpl Hs He n.
  induction n as [|n IH]; intros content index; [done|].
  cbn [while st_i length].
  destruct (Z.ltb_spec 0 (Z.of_nat (S (length ws)))) as [_|?]; [|lia].
  destruct (emit_cue_stuck words_per_line w ws fuel content index Hwpl Hs He)
    as [content' ->].
  cbn [mbind res_mbind res_bind]. apply IH.
Qed.

End Segmenter.

(** ** The segmenter: claims *)

(** A segment of three words, for the examples. *)
Definition three_words : list timed_word :=
  [TimedWord (u " Hola") (PyFloat.dec 0 1) (PyFloat.dec 4 10);
   TimedWord (u " mundo ") (PyFloat.dec 5 10) (PyFloat.dec 9 10);
   TimedWord (u " hoy") (PyFloat.dec 1 1) (PyFloat.dec 14 10)].

Lemma three_words_renderable : Forall renderable_word three_words.
Proof.
  repeat constructor; eexists; vm_compute; reflexivity.
Qed.

(** C1. For [words_per_line >= 1], a segment of [N] timestamped words
    (times that [format_timestamp] renders) gives the SRT text of
    [ceil (N / words_per_line)] cues, numbered from 1: the cues hold
    consecutive runs of the words, in order, [words_per_line] words each but
    the last, which holds between 1 and [words_per_line]; and the cue texts,
    joined by one space, are the stripped words joined by one space. *)
Theorem segment_cues (words_per_line : Z) (ws : list timed_word) :
  1 ≤ words_per_line →
  Forall renderable_word ws →
  ∃ groups : list (list timed_word),
    (∀ fuel : nat, (length ws ≤ fuel)%nat →
       create_srt_content fuel [Segment (Some ws)] words_per_line
       = Ret (join [10] (flat_map render_cue (number 1 groups))))
    ∧ words_per_line * (Z.of_nat (length groups) - 1) < Z.of_nat (length ws)
                       ≤ words_per_line * Z.of_nat (length groups)
    ∧ Z.of_nat (length groups)
      = (Z.of_nat (length ws) + words_per_line - 1) `div` words_per_line
    ∧ concat groups = ws
    ∧ (∀ (i : nat) (g : list timed_word),
         groups !! i = Some g →
         if bool_decide (S i = length groups)
         then 1 ≤ Z.of_nat (length g) ≤ words_per_line
         else Z.of_nat (length g) = words_per_line)
    ∧ join (u " ") (cue_text <$> number 1 groups)
      = join (u " ") ((λ w, strip (w_word w)) <$> ws).
Proof.
  intros Hwpl Hws.
  set (k := Z.to_nat words_per_line).
  assert (Hk : (1 ≤ k)%nat) by lia.
  exists (chunks k ws). repeat split.
  - intros fuel Hfuel.
    rewrite create_srt_content_spec; [|done| |simpl; lia].
    + cbn [flat_map]. unfold segment_groups. cbn [seg_words].
      by rewrite app_nil_r.
    + by constructor.
  - pose proof (length_chunks k ws Hk) as Hlen.
    rewrite Hlen. replace (Z.of_nat k) with words_per_line by lia.
    pose proof (Z.div_mod (Z.of_nat (length ws) + words_per_line - 1)
                  words_per_line ltac:(lia)).
    pose proof (Z.mod_pos_bound (Z.of_nat (length ws) + words_per_line - 1)
                  words_per_line ltac:(lia)).
    nia.
  - pose proof (length_chunks k ws Hk) as Hlen.
    rewrite Hlen. replace (Z.of_nat k) with words_per_line by lia.
    pose proof (Z.div_mod (Z.of_nat (length ws) + words_per_line - 1)
                  words_per_line ltac:(lia)).
    pose proof (Z.mod_pos_bound (Z.of_nat (length ws) + words_per_line - 1)
                  words_per_line ltac:(lia)).
    nia.
  - rewrite length_chunks by done. f_equal; lia.
  - by apply concat_chunks.
  - intros i g Hg. pose proof (chunks_sizes k ws Hk i g Hg) as Hsz.
    case_bool_decide; lia.
  - rewrite cue_text_number.
    transitivity (join (u " ")
                    (join (u " ")
                       <$> ((λ g : list timed_word, shown <$> g)
                              <$> chunks k ws))).
    { f_equal. by rewrite <- list_fmap_compose. }
    rewrite join_concat.
    + by rewrite concat_fmap_fmap, concat_chunks.
    + apply Forall_fmap. eapply Forall_impl; [by apply chunks_nonempty|].
      intros g Hg. by destruct g.
Qed.

Lemma segment_cues_witness :
  ∃ groups : list (list timed_word),
    (∀ fuel : nat, (length three_words ≤ fuel)%nat →
       create_srt_content fuel [Segment (Some three_words)] 2
       = Ret (join [10] (flat_map render_cue (number 1 groups))))
    ∧ 2 * (Z.of_nat (length groups) - 1) < Z.of_nat (length three_words)
                       ≤ 2 * Z.of_nat (length groups)
    ∧ Z.of_nat (length groups)
      = (Z.of_nat (length three_words) + 2 - 1) `div` 2
    ∧ concat groups = three_words
    ∧ (∀ (i : nat) (g : list timed_word),
         groups !! i = Some g →
         if bool_decide (S i = length groups)
         then 1 ≤ Z.of_nat (length g) ≤ 2
         else Z.of_nat (length g) = 2)
    ∧ join (u " ") (cue_text <$> number 1 groups)
      = join (u " ") ((λ w, strip (w_word w)) <$> three_words).
Proof.
  apply (segment_cues 2 three_words); [lia|].
  repeat constructor; eexists; vm_compute; reflexivity.
Defined.

(** C4. For [words_per_line >= 1] and segments whose times
    [format_timestamp] renders, the output is the SRT text of cues whose
    indices are 1, 2, ..., K in this order, whatever the segment
    boundaries; a segment gives [ceil (N / words_per_line)] cues for its
    [N] words and none when it has no ['words'] key; and (for every
    [words_per_line] and all times) leaving the segments without ['words']
    out of the input changes nothing: they neither fail the operation nor
    shift an index. *)
Theorem cue_indices (words_per_line : Z) (segments : list segment) :
  1 ≤ words_per_line →
  Forall renderable_segment segments →
  ∃ cues : list cue,
    (∀ fuel : nat, (max_words segments ≤ fuel)%nat →
       create_srt_content fuel segments words_per_line
       = Ret (join [10] (flat_map render_cue cues)))
    ∧ cue_index <$> cues = Z.of_nat <$> seq 1 (length cues)
    ∧ Z.of_nat (length cues)
      = foldr Z.add 0 (cue_count words_per_line <$> segments)
    ∧ (∀ seg, seg_words seg = None → cue_count words_per_line seg = 0)
    ∧ (∀ fuel : nat,
         create_srt_content fuel segments words_per_line
         = create_srt_content fuel
             (filter (λ seg, is_Some (seg_words seg)) segments)
             words_per_line).
Proof.
  intros Hwpl Hsegs.
  exists (number 1 (flat_map (segment_groups words_per_line) segments)).
  repeat split.
  - intros fuel Hfuel. by apply create_srt_content_spec.
  - rewrite cue_index_number, length_number.
    rewrite <- seq_shift, <- list_fmap_compose.
    apply list_fmap_ext. intros _ i _. simpl. lia.
  - rewrite length_number. clear Hsegs.
    induction segments as [|seg segments IH]; [done|].
    cbn [flat_map fmap list_fmap foldr]. rewrite length_app, Nat2Z.inj_add.
    by rewrite IH, cue_count_groups.
  - intros seg Hseg. unfold cue_count. by rewrite Hseg.
  - intros fuel. unfold create_srt_content, srt_lines. f_equal. f_equal.
    apply for_each_skip. by intros seg s ->.
Qed.

Lemma cue_indices_witness :
  ∃ cues : list cue,
    (∀ fuel : nat,
       (max_words [Segment (Some three_words); Segment None;
                   Segment (Some three_words)] ≤ fuel)%nat →
       create_srt_content fuel
         [Segment (Some three_words); Segment None;
          Segment (Some three_words)] 2
       = Ret (join [10] (flat_map render_cue cues)))
    ∧ cue_index <$> cues = Z.of_nat <$> seq 1 (length cues)
    ∧ Z.of_nat (length cues)
      = foldr Z.add 0
          (cue_count 2 <$> [Segment (Some three_words); Segment None;
                            Segment (Some three_words)])
    ∧ (∀ seg, seg_words seg = None → cue_count 2 seg = 0)
    ∧ (∀ fuel : nat,
         create_srt_content fuel
           [Segment (Some three_words); Segment None;
            Segment (Some three_words)] 2
         = create_srt_content fuel
             (filter (λ seg, is_Some (seg_words seg))
                [Segment (Some three_words); Segment None;
                 Segment (Some three_words)])
             2).
Proof.
  apply (cue_indices 2
           [Segment (Some three_words); Segment None;
            Segment (Some three_words)]); [lia|].
  repeat constructor; eexists; vm_compute; reflexivity.
Defined.

(** The segmenter on the three words, two per cue: the cues 1 and 2 come
    out, the second one holding the last word alone. (The double nearest
    to 1.4 lies below it: its milliseconds are 399.) *)
Example create_srt_content_three_words :
  create_srt_content 3 [Segment (Some three_words)] 2
  = Ret (join [10]
           [u "1"; u "00:00:00,000 --> 00:00:00,900"; u "Hola mundo"; [];
            u "2"; u "00:00:01,000 --> 00:00:01,399"; u "hoy"; []]).
Proof. vm_compute. reflexivity. Qed.

(** C10. For [words_per_line >= 1] the segmenter ends on every list of
    segments, returning or raising, as soon as each loop may take as many
    turns as the longest ['words'] list has words: every turn of the outer
    loop that returns has moved the word index forward, within the list.
    For [words_per_line <= 0] and a first segment whose ['words'] list is
    not empty (its first start time and that time plus 0.5 being
    rendered), a turn leaves the index where it was and no amount of fuel
    is enough. *)
Theorem create_srt_content_terminates (words_per_line : Z)
    (segments : list segment) :
  (1 ≤ words_per_line →
   ∀ fuel : nat, (max_words segments ≤ fuel)%nat →
     create_srt_content fuel segments words_per_line ≠ Fuel)
  ∧ (1 ≤ words_per_line →
     ∀ (fuel : nat) (ws : list timed_word) (s s' : srt_state),
       (length ws ≤ fuel)%nat →
       0 ≤ st_i s < Z.of_nat (length ws) →
       emit_cue fuel ws words_per_line s = Ret s' →
       st_i s < st_i s' ≤ Z.of_nat (length ws))
  ∧ (words_per_line ≤ 0 →
     ∀ (w : timed_word) (ws : list timed_word),
       renderable (w_start w) →
       renderable (PyFloat.add (w_start w) (PyFloat.dec 1 2)) →
       (∀ fuel (s : srt_state),
          emit_cue fuel (w :: ws) words_per_line
            {| st_i := 0; st_srt_content := st_srt_content s;
               st_subtitle_index := st_subtitle_index s |}
          = Ret {| st_i := 0;
                   st_srt_content :=
                     st_srt_content s
                     ++ [str_of_int (st_subtitle_index s);
                         stamp (w_start w) ++ u " --> "
                         ++ stamp (PyFloat.add (w_start w) (PyFloat.dec 1 2));
                         []; []];
                   st_subtitle_index := st_subtitle_index s + 1 |})
       ∧ ∀ fuel : nat,
           create_srt_content fuel (Segment (Some (w :: ws)) :: segments)
             words_per_line
           = Fuel).
Proof.
  split; [|split].
  - intros Hwpl fuel Hfuel. unfold create_srt_content.
    rewrite srt_lines_spec by done.
    pose proof (write_groups_ends
                  (flat_map (segment_groups words_per_line) segments)
                  ([], 1)) as Hends.
    by destruct (write_groups _ _).
  - intros Hwpl fuel ws [i content index] s' Hfuel Hi Hs'. cbn [st_i] in *.
    pose proof (take_drop (Z.to_nat i) ws) as Hws. symmetry in Hws.
    destruct (drop (Z.to_nat i) ws) as [|w r] eqn:Hdrop.
    { apply (f_equal length) in Hdrop. rewrite length_drop in Hdrop.
      simpl in Hdrop. lia. }
    assert (Hpre : Z.of_nat (length (take (Z.to_nat i) ws)) = i)
      by (rewrite length_take; lia).
    assert (Hr : (length (w :: r) ≤ fuel)%nat).
    { rewrite <- Hdrop, length_drop. lia. }
    pose proof (emit_cue_spec words_per_line ws _ w r content index fuel
                  Hwpl Hws Hr) as Hcue.
    cbv zeta in Hcue. rewrite Hpre in Hcue. rewrite Hcue in Hs'.
    destruct (format_timestamp (group_start _)); [|done..].
    destruct (format_timestamp (group_end _)); [|done..].
    cbn [mbind res_mbind res_bind] in Hs'. injection Hs' as <-.
    cbn [st_i]. rewrite length_app, Nat2Z.inj_add, Hpre, length_take.
    apply (f_equal length) in Hws. rewrite length_app in Hws.
    cbn [length] in *. lia.
  - intros Hwpl w ws Hs He. split.
    + intros fuel s.
      destruct (emit_cue_stuck words_per_line w ws fuel (st_srt_content s)
                  (st_subtitle_index s) Hwpl Hs He) as [content' Hc].
      rewrite Hc. revert Hc. unfold emit_cue.
      cbn [st_i st_srt_content st_subtitle_index].
      change (py_index (w :: ws) 0) with (Ret w).
      cbn [mbind res_mbind res_bind].
      rewrite collect_line_stuck by done.
      cbn [mbind res_mbind res_bind ln_i ln_line_words].
      rewrite Z.ltb_irrefl. cbn [mbind res_mbind res_bind].
      unfold stamp. destruct Hs as [sf ->]. destruct He as [ef ->].
      cbn [mbind res_mbind res_bind]. by intros [= <-].
    + intros fuel. unfold create_srt_content, srt_lines.
      cbn [for_each seg_words st_srt_content st_subtitle_index].
      by rewrite segment_loop_stuck.
Qed.

Lemma create_srt_content_terminates_witness :
  create_srt_content 3 [Segment (Some three_words)] 2 ≠ Fuel
  ∧ (0 < st_i {| st_i := 2; st_srt_content :=
                   [u "1"; u "00:00:00,000 --> 00:00:00,900";
                    u "Hola mundo"; []];
                 st_subtitle_index := 2 |} ≤ 3)
  ∧ create_srt_content 1000 [Segment (Some three_words)] 0 = Fuel.
Proof.
  pose proof (create_srt_content_terminates 2 [Segment (Some three_words)])
    as (Hends & Hmoves & _).
  pose proof (create_srt_content_terminates 0 [])
    as (_ & _ & Hstuck).
  split; [|split].
  - apply Hends; [lia|]. vm_compute. lia.
  - apply (Hmoves ltac:(lia) 3%nat three_words
             {| st_i := 0; st_srt_content := []; st_subtitle_index := 1 |}).
    + vm_compute. lia.
    + vm_compute. split; [discriminate|reflexivity].
    + vm_compute. reflexivity.
  - apply (Hstuck ltac:(lia)
             (TimedWord (u " Hola") (PyFloat.dec 0 1) (PyFloat.dec 4 10))
             _ ltac:(eexists; vm_compute; reflexivity)
             ltac:(eexists; vm_compute; reflexivity)).
Defined.


(** ** The job runner: proofs *)

(** The ['progress'] of a record. *)
Definition progress_of (r : record) : Z :=
  match r !! u "progress" with
  | Some (VInt n) => n
  | _ => 0
  end.

(** The ['status'] of a record. *)
Definition status_of (r : record) : str :=
  match r !! u "status" with
  | Some (VStr s) => s
  | _ => []
  end.

(** The phases of a run, and the phase a call belongs to. *)
Inductive phase : Type := Loading | Transcribing | Generating.

Definition phase_of {model : Type} (c : call model) : phase :=
  match c with
  | Load_model _ => Loading
  | Model_transcribe _ _ _ => Transcribing
  | Create_srt_content _ _ => Generating
  end.

Section Runner.

Context {model : Type} (whisper : engine model).
Implicit Types (w : world model) (r : record).

(** The model [get_model] hands out, when it returns. *)
Definition model_for (model_size : str) w : res model :=
  match model_cache w !! model_size with
  | Some m => Ret m
  | None => load_model whisper (calls w) model_size
  end.

(** The call of [whisper.load_model] that [get_model] makes: none when
    the cache holds the model. *)
Definition loads (model_size : str) w : list (call model) :=
  match model_cache w !! model_size with
  | Some _ => []
  | None => [Load_model model_size]
  end.

(** What [model.transcribe] does when the runner calls it, after
    [get_model]. *)
Definition transcribe_for (audio_path model_size : str)
    (language : option str) w (m : model) : res transcription :=
  transcribe whisper (calls w ++ loads model_size w) m audio_path language.

(** What a run of the runner writes, the calls it enters, and how it ends,
    by the outcome of the three calls. *)
Inductive runs_as (fuel : nat) (audio_path model_size : str)
    (language : option str) (words_per_line : Z) w
    : list record → list (call model) → res () → Prop :=
  | load_raises e :
    model_for model_size w = Exc e →
    runs_as fuel audio_path model_size language words_per_line w
      [loading_record model_size; error_record e]
      [Load_model model_size] (Ret ())
  | load_hangs :
    model_for model_size w = Fuel →
    runs_as fuel audio_path model_size language words_per_line w
      [loading_record model_size]
      [Load_model model_size] Fuel
  | transcribe_raises m e :
    model_for model_size w = Ret m →
    transcribe_for audio_path model_size language w m = Exc e →
    runs_as fuel audio_path model_size language words_per_line w
      [loading_record model_size; transcribing_record; error_record e]
      (loads model_size w ++ [Model_transcribe m audio_path language])
      (Ret ())
  | transcribe_hangs m :
    model_for model_size w = Ret m →
    transcribe_for audio_path model_size language w m = Fuel →
    runs_as fuel audio_path model_size language words_per_line w
      [loading_record model_size; transcribing_record]
      (loads model_size w ++ [Model_transcribe m audio_path language])
      Fuel
  | segmenter_raises m result e :
    model_for model_size w = Ret m →
    transcribe_for audio_path model_size language w m = Ret result →
    create_srt_content fuel (tr_segments result) words_per_line = Exc e →
    runs_as fuel audio_path model_size language words_per_line w
      [loading_record model_size; transcribing_record; generating_record;
       error_record e]
      (loads model_size w
       ++ [Model_transcribe m audio_path language;
           Create_srt_content (tr_segments result) words_per_line])
      (Ret ())
  | segmenter_hangs m result :
    model_for model_size w = Ret m →
    transcribe_for audio_path model_size language w m = Ret result →
    create_srt_content fuel (tr_segments result) words_per_line = Fuel →
    runs_as fuel audio_path model_size language words_per_line w
      [loading_record model_size; transcribing_record; generating_record]
      (loads model_size w
       ++ [Model_transcribe m audio_path language;
           Create_srt_content (tr_segments result) words_per_line])
      Fuel
  | completes m result srt_content :
    model_for model_size w = Ret m →
    transcribe_for audio_path model_size language w m = Ret result →
    create_srt_content fuel (tr_segments result) words_per_line
    = Ret srt_content →
    runs_as fuel audio_path model_size language words_per_line w
      [loading_record model_size; transcribing_record; generating_record;
       completed_record srt_content result]
      (loads model_size w
       ++ [Model_transcribe m audio_path language;
           Create_srt_content (tr_segments result) words_per_line])
      (Ret ()).

Ltac finish_run c :=
  cbn [fst snd history progress_queue started calls];
  rewrite <- ?app_assoc; cbn [app];
  eexists; eexists; split;
    [eapply c; unfold transcribe_for, loads;
     try match goal with
         | H : model_cache _ !! _ = _ |- _ => rewrite ?H
         end;
     rewrite ?app_nil_r; eassumption|];
  unfold loads;
  try match goal with
      | H : model_cache _ !! _ = _ |- _ => rewrite ?H
      end;
  cbn [app]; repeat split; reflexivity.

(** Every run is one of the seven. *)
Lemma runner_runs (fuel : nat) (audio_path model_size : str)
    (language : option str) (words_per_line : Z) (task_id : str) w :
  ∃ (written : list record) (made : list (call model)),
    runs_as fuel audio_path model_size language words_per_line w written
      made
      (transcribe_audio_with_progress whisper fuel audio_path model_size
         language words_per_line task_id w).2
    ∧ history (transcribe_audio_with_progress whisper fuel audio_path
                 model_size language words_per_line task_id w).1
      = history w ++ ((λ r, (task_id, r)) <$> written)
    ∧ progress_queue (transcribe_audio_with_progress whisper fuel audio_path
                        model_size language words_per_line task_id w).1
      = foldl (λ q r, <[task_id := r]> q) (progress_queue w) written
    ∧ started (transcribe_audio_with_progress whisper fuel audio_path
                 model_size language words_per_line task_id w).1
      = started w
    ∧ calls (transcribe_audio_with_progress whisper fuel audio_path
               model_size language words_per_line task_id w).1
      = calls w ++ made.
Proof.
  unfold transcribe_audio_with_progress, try_except.
  unfold get_model, model_transcribe, call_create_srt_content,
    whisper_load_model.
  unfold mbind, mret, io_mbind, io_mret, set_progress, set_model, enter,
    lift.
  cbn [progress_queue model_cache started history calls].
  assert (Hfor := eq_refl (model_for model_size w)).
  unfold model_for at 2 in Hfor.
  destruct (model_cache w !! model_size) as [m|] eqn:Hcache;
    [|destruct (load_model whisper (calls w) model_size) as [m|e|] eqn:Hload];
    cbn [progress_queue model_cache started history calls];
    [| |finish_run load_raises|finish_run load_hangs];
    (destruct (transcribe whisper _ m audio_path language) as [result|e|]
       eqn:Htr;
     [|finish_run transcribe_raises|finish_run transcribe_hangs];
     destruct (create_srt_content fuel (tr_segments result) words_per_line)
       as [srt|e|] eqn:Hsrt;
     [finish_run completes|finish_run segmenter_raises
     |finish_run segmenter_hangs]).
Qed.

Lemma record_progress (model_size : str) (srt : str) (result : transcription)
    (e : exn) :
  progress_of (loading_record model_size) = 20
  ∧ progress_of transcribing_record = 40
  ∧ progress_of generating_record = 80
  ∧ progress_of (completed_record srt result) = 100
  ∧ progress_of (error_record e) = 0
  ∧ progress_of uploading_record = 10.
Proof. split_and!; vm_compute; reflexivity. Qed.

Lemma record_status (model_size : str) (srt : str) (result : transcription)
    (e : exn) :
  status_of (loading_record model_size) = u "loading_model"
  ∧ status_of transcribing_record = u "transcribing"
  ∧ status_of generating_record = u "generating_srt"
  ∧ status_of (completed_record srt result) = u "completed"
  ∧ status_of (error_record e) = u "error"
  ∧ status_of uploading_record = u "uploading".
Proof. split_and!; vm_compute; reflexivity. Qed.

(** The keys of the records: ['result'] goes with ['completed'], and no
    record has an ['error'] key or the status ['failed']. *)
Definition well_keyed (r : record) : Prop :=
  (is_Some (r !! u "result") ↔ r !! u "status" = Some (VStr (u "completed")))
  ∧ r !! u "error" = None
  ∧ r !! u "status" ≠ Some (VStr (u "failed")).

Lemma record_keys (model_size : str) (srt : str) (result : transcription)
    (e : exn) :
  well_keyed (loading_record model_size)
  ∧ well_keyed transcribing_record
  ∧ well_keyed generating_record
  ∧ well_keyed (completed_record srt result)
  ∧ well_keyed (error_record e)
  ∧ well_keyed uploading_record.
Proof.
  repeat split;
    try (vm_compute; reflexivity);
    try (intros [v Hv]; vm_compute in Hv; discriminate Hv);
    try (intros Hv; vm_compute in Hv; discriminate Hv);
    try (intros _; eexists; vm_compute; reflexivity).
Qed.

Ltac sorted_yes := split; [intros _; repeat constructor; lia|done].
Ltac sorted_no :=
  split; [done|]; intros Hs;
  repeat match goal with
         | H : StronglySorted _ (_ :: _) |- _ =>
           apply StronglySorted_inv in H as [? ?]
         | H : Forall _ (_ :: _) |- _ => apply Forall_cons_1 in H as [? ?]
         end; lia.

(** C5 (as the code has it). The progress values of a job are 10 at
    creation ([uploading]) and then, written by the runner in this order
    and as far as the run gets, 20, 40, 80 and 100; a run that fails ends
    with one more write, of progress 0, with the status [error]. So the
    values from creation on are non-decreasing exactly when the run does
    not fail. *)
Theorem runner_progress (fuel : nat) (audio_path model_size : str)
    (language : option str) (words_per_line : Z) (task_id : str) w :
  ∃ (written : list record) (k : nat) (failed : bool),
    history (transcribe_audio_with_progress whisper fuel audio_path
               model_size language words_per_line task_id w).1
    = history w ++ ((λ r, (task_id, r)) <$> written)
    ∧ (1 ≤ k ≤ 4)%nat
    ∧ progress_of <$> written
      = take k [20; 40; 80; 100] ++ (if failed then [0] else [])
    ∧ (failed = true ↔ status_of <$> last written = Some (u "error"))
    ∧ progress_of uploading_record = 10
    ∧ (failed = false ↔
       StronglySorted Z.le
         (progress_of uploading_record :: (progress_of <$> written))).
Proof.
  destruct (runner_runs fuel audio_path model_size language words_per_line
              task_id w) as (written & made & Hruns & Hhist & _).
  exists written.
  destruct Hruns;
    [exists 1%nat, true|exists 1%nat, false|exists 2%nat, true
    |exists 2%nat, false|exists 3%nat, true|exists 3%nat, false
    |exists 4%nat, false];
    (split; [exact Hhist|]); (split; [lia|]);
    (split; [vm_compute; reflexivity|]);
    (split; [split; [try done; intros _; vm_compute; reflexivity
                    |try done; intros Hv; vm_compute in Hv;
                     discriminate Hv]|]);
    (split; [vm_compute; reflexivity|]);
    cbn [fmap list_fmap];
    repeat match goal with
           | |- context [progress_of ?r] =>
             let v := eval vm_compute in (progress_of r) in
             change (progress_of r) with v
           end;
    first [sorted_yes|sorted_no].
Qed.

Ltac same_outcome :=
  repeat match goal with
         | H1 : ?x = Ret ?a, H2 : ?x = Ret ?b |- _ =>
           rewrite H1 in H2; injection H2 as ->
         | H1 : ?x = Ret ?a, H2 : ?x = Exc ?b |- _ =>
           rewrite H1 in H2; discriminate H2
         | H1 : ?x = Exc ?a, H2 : ?x = Exc ?b |- _ =>
           rewrite H1 in H2; injection H2 as ->
         | H1 : ?x = Fuel, H2 : ?x = _ |- _ =>
           rewrite H1 in H2; discriminate H2
         end.

(** C6 (as the code has it). When the loading of the model, the
    transcription or the segmenter raises [e], the runner catches it,
    writes the record [{'status': 'error', 'progress': 0, 'message':
    'Error: ' + str(e)}] last and returns. There is no retry: the calls a
    run enters are [whisper.load_model] (when the model is not cached),
    [model.transcribe] and [create_srt_content], in this order and each at
    most once; the call that raised is the last one entered, and what the
    library would do on a further call plays no part. No status is written
    twice either. Every record written has the key ['result'] if and only
    if its status is ['completed'], and none has an ['error'] key or the
    status ['failed']: the description of the failure is in ['message']. *)
Theorem runner_failure (fuel : nat) (audio_path model_size : str)
    (language : option str) (words_per_line : Z) (task_id : str) w :
  ∃ (written : list record) (made : list (call model)),
    history (transcribe_audio_with_progress whisper fuel audio_path
               model_size language words_per_line task_id w).1
    = history w ++ ((λ r, (task_id, r)) <$> written)
    ∧ calls (transcribe_audio_with_progress whisper fuel audio_path
               model_size language words_per_line task_id w).1
      = calls w ++ made
    ∧ Forall well_keyed written
    ∧ NoDup (status_of <$> written)
    ∧ (phase_of <$> made) `sublist_of` [Loading; Transcribing; Generating]
    ∧ (∀ e : exn,
        (model_for model_size w = Exc e
         ∨ (∃ m, model_for model_size w = Ret m
                 ∧ transcribe_for audio_path model_size language w m = Exc e)
         ∨ (∃ m result,
              model_for model_size w = Ret m
              ∧ transcribe_for audio_path model_size language w m = Ret result
              ∧ create_srt_content fuel (tr_segments result) words_per_line
                = Exc e)) →
        (transcribe_audio_with_progress whisper fuel audio_path model_size
           language words_per_line task_id w).2 = Ret ()
        ∧ last written = Some (error_record e)
        ∧ progress_queue
            (transcribe_audio_with_progress whisper fuel audio_path
               model_size language words_per_line task_id w).1 !! task_id
          = Some (error_record e))
    ∧ (∀ e : exn,
        model_for model_size w = Exc e →
        made = [Load_model model_size])
    ∧ (∀ (m : model) (e : exn),
        model_for model_size w = Ret m →
        transcribe_for audio_path model_size language w m = Exc e →
        made = loads model_size w ++ [Model_transcribe m audio_path language])
    ∧ (∀ (m : model) (result : transcription) (e : exn),
        model_for model_size w = Ret m →
        transcribe_for audio_path model_size language w m = Ret result →
        create_srt_content fuel (tr_segments result) words_per_line = Exc e →
        made
        = loads model_size w
          ++ [Model_transcribe m audio_path language;
              Create_srt_content (tr_segments result) words_per_line]).
Proof.
  destruct (runner_runs fuel audio_path model_size language words_per_line
              task_id w)
    as (written & made & Hruns & Hhist & Hqueue & _ & Hcalls).
  exists written, made. split; [exact Hhist|]. split; [exact Hcalls|].
  rewrite Hqueue. clear Hhist Hqueue Hcalls.
  destruct Hruns as [e0 Hm|Hm|m0 e0 Hm Ht|m0 Hm Ht|m0 r0 e0 Hm Ht Hs
                    |m0 r0 Hm Ht Hs|m0 r0 srt Hm Ht Hs].
  all: split;
    [repeat constructor;
     apply (record_keys model_size [] (Transcription_result [] None)
              (Exn ValueError [])) ||
     (try apply (record_keys model_size srt r0 (Exn ValueError [])));
     (try apply (record_keys model_size [] (Transcription_result [] None) e0))
    |].
  all: split;
    [cbn [fmap list_fmap];
     repeat match goal with
            | |- context [status_of ?r] =>
              let v := eval vm_compute in (status_of r) in
              change (status_of r) with v
            end;
     repeat (constructor; [rewrite ?list_elem_of_In; simpl; intuition discriminate|]);
     constructor
    |].
  all: split;
    [unfold loads; destruct (model_cache w !! model_size);
     cbn [app fmap list_fmap phase_of]; repeat constructor|].
  all: split;
    [intros e [He|[(m & Hm' & He)|(m & result & Hm' & Ht' & He)]];
     try congruence; same_outcome; try congruence;
     (split; [reflexivity|split; [reflexivity|]]);
     cbn [foldl]; apply lookup_insert_eq
    |].
  all: split_and!; intros; same_outcome; try congruence; reflexivity.
Qed.

(** C9 (as the code has it). An assignment [progress_queue[task_id] = r]
    for an id the registry does not hold raises nothing and creates the
    entry, leaving the other entries as they were; so a runner whose entry
    has been removed puts it back with its next write, and never raises. *)
Theorem set_progress_absent (fuel : nat) (audio_path model_size : str)
    (language : option str) (words_per_line : Z) (task_id : str) r w :
  progress_queue w !! task_id = None →
  (set_progress task_id r w).2 = Ret ()
  ∧ progress_queue (set_progress task_id r w).1 !! task_id = Some r
  ∧ (∀ other : str, other ≠ task_id →
       progress_queue (set_progress task_id r w).1 !! other
       = progress_queue w !! other)
  ∧ is_Some
      (progress_queue
         (transcribe_audio_with_progress whisper fuel audio_path model_size
            language words_per_line task_id w).1 !! task_id)
  ∧ ∀ e : exn,
      (transcribe_audio_with_progress whisper fuel audio_path model_size
         language words_per_line task_id w).2 ≠ Exc e.
Proof.
  intros _. unfold set_progress. cbn [fst snd progress_queue].
  split; [done|]. split; [apply lookup_insert_eq|].
  split; [intros other Hne; by apply lookup_insert_ne|].
  destruct (runner_runs fuel audio_path model_size language words_per_line
              task_id w) as (written & made & Hruns & _ & Hqueue & _).
  rewrite Hqueue.
  destruct Hruns; (split; [cbn [foldl]; rewrite lookup_insert_eq; by eexists
                          |intros e'; intros Heq; discriminate Heq]).
Qed.

End Runner.

(** ** The job runner: claims at work *)

(** The world after the page's request (task id [1700000000000], six
    words per line) has been accepted. *)
Definition accepted_world : world () :=
  (handle_transcribe sample_environment
     (sample_request [("words_per_line", "6"); ("task_id", "1700000000000")])
     fresh_world).1.

(** ... and after the threads it started have run, the model failing to
    load. *)
Definition failed_world : world () :=
  match started accepted_world with
  | t :: _ => (run_thread failing_engine 10 t accepted_world).1
  | [] => accepted_world
  end.

(** The claim C5 fails as stated: on this run the progress values written
    for the job are 10, 20 and then 0. *)
Lemma progress_drops_on_failure :
  (progress_of ∘ snd <$> history failed_world) = [10; 20; 0]
  ∧ ¬ StronglySorted Z.le (progress_of ∘ snd <$> history failed_world).
Proof.
  assert (H : (progress_of ∘ snd <$> history failed_world) = [10; 20; 0])
    by (vm_compute; reflexivity).
  split; [exact H|]. rewrite H. intros Hs.
  apply StronglySorted_inv in Hs as [_ Hs].
  apply Forall_cons_1 in Hs as [_ Hs]. apply Forall_cons_1 in Hs as [Hs _].
  lia.
Qed.

(** The claim C6 fails as stated: the terminal status of a failed job is
    [error], not [failed]. *)
Lemma failure_status_is_error :
  status_of <$> (progress_queue failed_world !! u "1700000000000")
  = Some (u "error")
  ∧ status_of <$> (progress_queue failed_world !! u "1700000000000")
    ≠ Some (u "failed").
Proof.
  assert (H : status_of <$> (progress_queue failed_world
                               !! u "1700000000000") = Some (u "error"))
    by (vm_compute; reflexivity).
  split; [exact H|]. rewrite H. vm_compute. discriminate.
Qed.

Lemma runner_failure_witness :
  (transcribe_audio_with_progress failing_engine 10 (u "/tmp/tmpabc.tmp")
     (u "medium") None 6 (u "1700000000000") accepted_world).2 = Ret ()
  ∧ progress_queue
      (transcribe_audio_with_progress failing_engine 10 (u "/tmp/tmpabc.tmp")
         (u "medium") None 6 (u "1700000000000") accepted_world).1
      !! u "1700000000000"
    = Some (error_record (Exn RuntimeError (u "model not found")))
  ∧ calls
      (transcribe_audio_with_progress failing_engine 10 (u "/tmp/tmpabc.tmp")
         (u "medium") None 6 (u "1700000000000") accepted_world).1
    = calls accepted_world ++ [Load_model (u "medium")].
Proof.
  assert (Hload : model_for failing_engine (u "medium") accepted_world
                  = Exc (Exn RuntimeError (u "model not found")))
    by (vm_compute; reflexivity).
  destruct (runner_failure failing_engine 10 (u "/tmp/tmpabc.tmp")
              (u "medium") None 6 (u "1700000000000") accepted_world)
    as (written & made & _ & Hcalls & _ & _ & _ & Hfail & Hmade & _).
  destruct (Hfail (Exn RuntimeError (u "model not found")) (or_introl Hload))
    as (Hret & _ & Hq).
  rewrite (Hmade _ Hload) in Hcalls.
  split; [exact Hret|]. split; [exact Hq|exact Hcalls].
Defined.

(** The world after the sweep of [cleanup_old_tasks] at the time
    1700001801: the entry of the job, more than 1800 seconds old by its
    id, is gone. *)
Definition swept_world : world () :=
  World (cleanup_sweep (PyFloat.dec 1700001801 1)
           (progress_queue accepted_world))
    (model_cache accepted_world) (started accepted_world)
    (history accepted_world) (calls accepted_world).

(** The claim C9 fails as stated: the runner's assignment for an id the
    registry no longer holds puts an entry back. *)
Lemma write_after_eviction_creates :
  progress_queue swept_world !! u "1700000000000" = None
  ∧ progress_queue
      (set_progress (u "1700000000000") (loading_record (u "medium"))
         swept_world).1 !! u "1700000000000"
    = Some (loading_record (u "medium"))
  ∧ progress_queue
      (set_progress (u "1700000000000") (loading_record (u "medium"))
         swept_world).1
    ≠ progress_queue swept_world.
Proof.
  assert (H1 : progress_queue swept_world !! u "1700000000000" = None)
    by (vm_compute; reflexivity).
  assert (H2 : progress_queue
                 (set_progress (u "1700000000000")
                    (loading_record (u "medium")) swept_world).1
                 !! u "1700000000000"
               = Some (loading_record (u "medium")))
    by apply lookup_insert_eq.
  split; [exact H1|]. split; [exact H2|].
  intros Heq. rewrite Heq, H1 in H2. discriminate H2.
Qed.

Lemma set_progress_absent_witness :
  progress_queue swept_world !! u "1700000000000" = None
  ∧ is_Some
      (progress_queue
         (transcribe_audio_with_progress failing_engine 10
            (u "/tmp/tmpabc.tmp") (u "medium") None 6 (u "1700000000000")
            swept_world).1 !! u "1700000000000").
Proof.
  assert (H1 : progress_queue swept_world !! u "1700000000000" = None)
    by (vm_compute; reflexivity).
  split; [exact H1|].
  apply (set_progress_absent failing_engine 10 (u "/tmp/tmpabc.tmp")
           (u "medium") None 6 (u "1700000000000")
           (loading_record (u "medium")) swept_world H1).
Defined.

(** ** The HTTP handlers: proofs *)

Lemma to_decimal_range (c d : Z) : to_decimal c = Some d → 0 ≤ d ≤ 9.
Proof.
  unfold to_decimal.
  destruct (List.find _ decimal_zeros) as [z|] eqn:Hz; [|done].
  intros [= <-]. apply find_some in Hz as [_ Hz]. lia.
Qed.

Lemma ascii_fold_no_minus (s a : str) :
  forallb isdigit_char s = true → ascii_fold s = Some a →
  Forall (λ c, c ≠ 45) a.
Proof.
  revert a. induction s as [|c r IH]; intros a Hs Ha.
  - injection Ha as <-. constructor.
  - cbn [forallb] in Hs. apply andb_prop in Hs as [Hc Hr].
    cbn [ascii_fold] in Ha.
    assert (Hc' : ∀ c', (if c <? 128 then Some c
                         else if isspace_char c then Some 32
                         else (λ d : Z, 48 + d) <$> to_decimal c) = Some c' →
                        c' ≠ 45).
    { intros c' Hc'. destruct (c <? 128).
      - injection Hc' as <-. intros ->. vm_compute in Hc. discriminate Hc.
      - destruct (isspace_char c); [by injection Hc' as <-|].
        destruct (to_decimal c) as [d|] eqn:Hd; [|done].
        injection Hc' as <-. apply to_decimal_range in Hd. lia. }
    destruct (if c <? 128 then _ else _) as [c'|]; [|done].
    cbn [mbind option_bind] in Ha.
    destruct (ascii_fold r) as [a'|]; [|done]. injection Ha as <-.
    constructor; [by apply Hc'|by apply IH].
Qed.

Lemma skip_spaces_Forall (P : Z → Prop) (s : str) :
  Forall P s → Forall P (skip_spaces s).
Proof.
  induction 1 as [|c r Hc Hr IH]; [done|]. cbn [skip_spaces].
  destruct (c_isspace c); [done|by constructor].
Qed.

Lemma scan_digits_nonneg (s : str) :
  ∀ (prev acc : Z) (n : nat) v k rest,
    0 ≤ acc → scan_digits s prev acc n = Some (v, k, rest) → 0 ≤ v.
Proof.
  induction s as [|c r IH]; intros prev acc n v k rest Hacc Hscan;
    cbn [scan_digits] in Hscan.
  - destruct (prev =? 95); [done|]. by injection Hscan as <- _ _.
  - destruct ((48 <=? c) && (c <=? 57)) eqn:Hd.
    + eapply IH; [|exact Hscan]. lia.
    + destruct (c =? 95).
      * destruct (prev =? 95); [done|]. by eapply IH.
      * destruct (prev =? 95); [done|]. by injection Hscan as <- _ _.
Qed.

(** A text of digits is never read as a number below zero. *)
Lemma int_of_digits_nonneg (s : str) (n : Z) :
  isdigit s = true → int_of_str s = Some n → 0 ≤ n.
Proof.
  intros Hs Hn.
  assert (Hall : forallb isdigit_char s = true) by (by destruct s).
  unfold int_of_str in Hn.
  destruct (ascii_fold s) as [a|] eqn:Ha; [|done].
  cbn [mbind option_bind] in Hn.
  pose proof (skip_spaces_Forall _ _ (ascii_fold_no_minus s a Hall Ha)) as Hno.
  destruct (skip_spaces a) as [|c r] eqn:Hs1.
  - done.
  - apply Forall_cons_1 in Hno as [Hc _].
    destruct (c =? 43).
    + destruct (starts_with [95] r); [done|].
      destruct (scan_digits r 0 0 0) as [[[v k] rest]|] eqn:Hscan; [|done].
      cbn [mbind option_bind] in Hn. repeat case_match; try done.
      injection Hn as <-. by eapply scan_digits_nonneg; [|exact Hscan].
    + destruct (Z.eqb_spec c 45) as [->|_]; [done|].
      destruct (starts_with [95] (c :: r)); [done|].
      destruct (scan_digits (c :: r) 0 0 0) as [[[v k] rest]|] eqn:Hscan;
        [|done].
      cbn [mbind option_bind] in Hn. repeat case_match; try done.
      injection Hn as <-. by eapply scan_digits_nonneg; [|exact Hscan].
Qed.

Lemma py_int_ends (s : str) : py_int s ≠ Fuel.
Proof. unfold py_int. by destruct (int_of_str s). Qed.

Lemma decode_strip_ends (b : bytes) : decode_strip b ≠ Fuel.
Proof. unfold decode_strip. by destruct (utf8_decode b). Qed.

Lemma read_part_ends (part : bytes) (f : form) : read_part part f ≠ Fuel.
Proof.
  unfold read_part.
  repeat case_match; try done;
    repeat match goal with
           | |- context [decode_strip ?b] =>
             pose proof (decode_strip_ends b);
             destruct (decode_strip b); cbn [mbind res_mbind res_bind]
           | |- context [py_int ?b] =>
             pose proof (py_int_ends b);
             destruct (py_int b); cbn [mbind res_mbind res_bind]
           | |- context [if ?b then _ else _] => destruct b
           end; done.
Qed.

Lemma read_parts_end (parts : list bytes) (f : form) :
  for_each parts read_part f ≠ Fuel.
Proof.
  revert f. induction parts as [|p parts IH]; intros f; [done|].
  cbn [for_each]. pose proof (read_part_ends p f).
  destruct (read_part p f); cbn [mbind res_mbind res_bind]; [apply IH|done..].
Qed.

(** Reading a part never makes [words_per_line] negative. *)
Lemma read_part_words_per_line (part : bytes) (f f' : form) :
  read_part part f = Ret f' →
  0 ≤ f_words_per_line f → 0 ≤ f_words_per_line f'.
Proof.
  unfold read_part. intros Hread Hf.
  destruct (contains (octets "Content-Disposition: form-data") part);
    [|by injection Hread as <-].
  destruct (has_name "audio" part && contains (octets "filename=") part).
  { destruct (part_payload part); by injection Hread as <-. }
  destruct (has_name "words_per_line" part).
  { destruct (part_payload part) as [b|]; [|by injection Hread as <-].
    destruct (decode_strip b) as [value| |];
      cbn [mbind res_mbind res_bind] in Hread; [|done..].
    destruct (isdigit value) eqn:Hdig.
    - unfold py_int in Hread.
      destruct (int_of_str value) as [n|] eqn:Hn;
        cbn [mbind res_mbind res_bind] in Hread; [|done].
      injection Hread as <-. cbn [f_words_per_line].
      by eapply int_of_digits_nonneg.
    - cbn [mbind res_mbind res_bind] in Hread.
      injection Hread as <-. cbn [f_words_per_line]. lia. }
  destruct (has_name "model_size" part).
  { destruct (part_payload part) as [b|]; [|by injection Hread as <-].
    destruct (decode_strip b) as [value| |];
      cbn [mbind res_mbind res_bind] in Hread; [|done..].
    by injection Hread as <-. }
  destruct (has_name "language" part).
  { destruct (part_payload part) as [b|]; [|by injection Hread as <-].
    destruct (decode_strip b) as [value| |];
      cbn [mbind res_mbind res_bind] in Hread; [|done..].
    injection Hread as <-. by destruct (bool_decide _). }
  destruct (has_name "task_id" part).
  { destruct (part_payload part) as [b|]; [|by injection Hread as <-].
    destruct (decode_strip b) as [value| |];
      cbn [mbind res_mbind res_bind] in Hread; [|done..].
    by injection Hread as <-. }
  by injection Hread as <-.
Qed.

Lemma read_parts_words_per_line (parts : list bytes) (f f' : form) :
  for_each parts read_part f = Ret f' →
  0 ≤ f_words_per_line f → 0 ≤ f_words_per_line f'.
Proof.
  revert f. induction parts as [|p parts IH]; intros f Hrun Hf.
  - by injection Hrun as <-.
  - cbn [for_each] in Hrun.
    destruct (read_part p f) as [f1| |] eqn:Hp;
      cbn [mbind res_mbind res_bind] in Hrun; [|done..].
    eapply IH; [exact Hrun|]. by eapply read_part_words_per_line.
Qed.

Section Handler.

Context {model : Type}.
Implicit Types (w : world model).

(** The world once [handle_transcribe] has assigned the first record of
    the job. *)
Definition registered (f : form) w : world model :=
  World (<[f_task_id f := uploading_record]> (progress_queue w))
    (model_cache w) (started w)
    (history w ++ [(f_task_id f, uploading_record)]) (calls w).

(** The world once it has started the two threads as well. *)
Definition accepted (f : form) (temp_path : str) w : world model :=
  World (<[f_task_id f := uploading_record]> (progress_queue w))
    (model_cache w)
    (started w
     ++ [Transcription temp_path (f_model_size f) (f_language f)
           (f_words_per_line f) (f_task_id f);
         CleanupTempFile temp_path (f_task_id f)])
    (history w ++ [(f_task_id f, uploading_record)]) (calls w).

(** The body of the answer to an accepted request. *)
Definition started_body (f : form) : record :=
  dict [("status", VStr (u "started")); ("task_id", VStr (f_task_id f));
        ("message", VStr (u "Transcripción iniciada"))].

(** The ways [handle_transcribe] ends. *)
Lemma handle_transcribe_outcomes (env : environment) (req : request) w :
  (∃ msg, handle_transcribe env req w = (w, Ret (SendError 400 msg))
          ∧ (msg = u "No hay contenido" ∨ msg = u "Boundary no encontrado"
             ∨ msg = u "Archivo de audio no encontrado"))
  ∨ (∃ msg, handle_transcribe env req w = (w, Ret (SendError 500 msg)))
  ∨ (∃ parts f,
       for_each parts read_part
         (Form None 6 (u "medium") None (env_uuid4 env)) = Ret f
       ∧ ((∃ msg, handle_transcribe env req w
                  = (registered f w, Ret (SendError 500 msg)))
          ∨ handle_transcribe env req w = (registered f w, Fuel)
          ∨ ∃ temp_path,
              handle_transcribe env req w
              = (accepted f temp_path w, Ret (SendJson 200 (started_body f))))).
Proof.
  unfold handle_transcribe, try_except, mbind, io_mbind, lift, mret, io_mret,
    set_progress, start_thread.
  repeat case_match; simplify_eq;
  try (exfalso; eapply py_int_ends; eassumption);
  try (exfalso; eapply read_parts_end; eassumption);
  first
    [ left; eexists; split; [reflexivity|tauto]
    | right; left; eexists; reflexivity
    | right; right; eexists _, _; split; [eassumption|];
      first [left; eexists; reflexivity
            |right; left; reflexivity
            |right; right; eexists; unfold accepted;
             cbn [progress_queue model_cache started history];
             rewrite <- app_assoc; reflexivity] ].
Qed.

Lemma split_go_plain (c : Z) (s : list Z) :
  c ∉ s → ∀ cur, split_go [c] s cur 0 = [reverse cur ++ s].
Proof.
  induction s as [|x r IH]; intros Hc cur.
  - cbn [split_go]. by rewrite app_nil_r.
  - apply not_elem_of_cons in Hc as [Hx Hr]. cbn [split_go starts_with].
    destruct (Z.eqb_spec c x) as [->|_]; [done|]. cbn [andb].
    rewrite IH by done. by rewrite reverse_cons, <- app_assoc.
Qed.

Lemma split_go_last (c : Z) (id : list Z) :
  c ∉ id → ∀ s cur, last (split_go [c] (s ++ c :: id) cur 0) = Some id.
Proof.
  intros Hc. induction s as [|x r IH]; intros cur.
  - cbn [app split_go starts_with length]. rewrite Z.eqb_refl. cbn [andb].
    change (1 - 1)%nat with 0%nat. by rewrite split_go_plain.
  - cbn [app split_go starts_with length].
    destruct (c =? x); cbn [andb].
    + change (1 - 1)%nat with 0%nat. specialize (IH []).
      destruct (split_go [c] (r ++ c :: id) [] 0); [done|exact IH].
    + apply IH.
Qed.

(** The path [/progress/<id>] leads [serve_progress] to the entry of
    [id], when [id] has no slash. *)
Lemma serve_progress_path (tid : str) w :
  47 ∉ tid →
  serve_progress (u "/progress/" ++ tid) w
  = SendJson 200 (default not_found_record (progress_queue w !! tid)).
Proof.
  intros Hid. unfold serve_progress, split.
  change (u "/") with [47].
  change (u "/progress/") with (u "/progress" ++ [47]).
  rewrite <- app_assoc. cbn [app].
  rewrite (split_go_last 47 tid Hid (u "/progress") []).
  unfold default, from_option, id.
  by destruct (progress_queue w !! tid).
Qed.

(** C7 (as the code has it). When [handle_transcribe] accepts a request
    (it answers 200 with a JSON body), the body names the task id, and
    the registry holds for that id the record [{'status': 'uploading',
    'progress': 10, 'message': 'Archivo recibido, preparando...'}], the
    last one written so far; [serve_progress] on [/progress/<id>] answers
    200 with that record (for an id without a slash). *)
Theorem accepted_job_lookup (env : environment) (req : request) w w'
    (body : record) :
  handle_transcribe env req w = (w', Ret (SendJson 200 body)) →
  ∃ task_id : str,
    body !! u "task_id" = Some (VStr task_id)
    ∧ body !! u "status" = Some (VStr (u "started"))
    ∧ progress_queue w' !! task_id = Some uploading_record
    ∧ uploading_record !! u "status" = Some (VStr (u "uploading"))
    ∧ uploading_record !! u "progress" = Some (VInt 10)
    ∧ history w' = history w ++ [(task_id, uploading_record)]
    ∧ (47 ∉ task_id →
       serve_progress (u "/progress/" ++ task_id) w'
       = SendJson 200 uploading_record).
Proof.
  intros Hrun.
  destruct (handle_transcribe_outcomes env req w)
    as [(msg & H & _)|[(msg & H)|(parts & f & _ & [(msg & H)|[H|(tp & H)]])]];
    rewrite H in Hrun; try discriminate Hrun.
  injection Hrun as <- <-. exists (f_task_id f).
  assert (Hq : progress_queue (accepted f tp w) !! f_task_id f
               = Some uploading_record) by apply lookup_insert_eq.
  split; [vm_compute; reflexivity|].
  split; [vm_compute; reflexivity|].
  split; [exact Hq|].
  split; [vm_compute; reflexivity|].
  split; [vm_compute; reflexivity|].
  split; [reflexivity|].
  intros Hid. rewrite serve_progress_path by done. by rewrite Hq.
Qed.

(** C2 (as the code has it). A [words_per_line] field never makes
    [handle_transcribe] refuse a request: it answers 400 only for a
    request without content, without boundary or without audio, leaving
    the world as it was. A value that is not made of digits, such as one
    that starts with a minus sign, is replaced by 6 when the part is
    read. So every transcription thread the handler starts has
    [words_per_line >= 0]: no negative value reaches the runner. *)
Theorem words_per_line_boundary (env : environment) (req : request) w :
  (∀ (code : Z) (msg : str) w',
     handle_transcribe env req w = (w', Ret (SendError code msg)) →
     code = 400 →
     w' = w
     ∧ (msg = u "No hay contenido" ∨ msg = u "Boundary no encontrado"
        ∨ msg = u "Archivo de audio no encontrado"))
  ∧ (∀ (part b : bytes) (value : str) (f : form),
       contains (octets "Content-Disposition: form-data") part = true →
       has_name "audio" part && contains (octets "filename=") part = false →
       has_name "words_per_line" part = true →
       part_payload part = Some b →
       decode_strip b = Ret value →
       isdigit value = false →
       read_part part f
       = Ret (Form (f_audio_data f) 6 (f_model_size f) (f_language f)
                (f_task_id f)))
  ∧ (∀ value : str, isdigit (45 :: value) = false)
  ∧ (∀ audio_path model_size language (n : Z) task_id,
       Transcription audio_path model_size language n task_id
         ∈ started (handle_transcribe env req w).1 →
       Transcription audio_path model_size language n task_id ∈ started w
       ∨ 0 ≤ n).
Proof.
  split; [|split; [|split]].
  - intros code msg w' Hrun ->.
    destruct (handle_transcribe_outcomes env req w)
      as [(m & H & Hm)|[(m & H)|(parts & f & _
                                  & [(m & H)|[H|(tp & H)]])]];
      rewrite H in Hrun; try discriminate Hrun.
    by injection Hrun as <- <-.
  - intros part b value f Hcd Haudio Hname Hb Hv Hdig. unfold read_part.
    rewrite Hcd, Haudio, Hname, Hb, Hv. cbn [mbind res_mbind res_bind].
    by rewrite Hdig.
  - intros value. reflexivity.
  - intros ap ms lang n id Hin.
    destruct (handle_transcribe_outcomes env req w)
      as [(m & H & Hm)|[(m & H)|(parts & f & Hf
                                  & [(m & H)|[H|(tp & H)]])]];
      rewrite H in Hin; cbn [fst registered accepted started] in Hin;
      try (by left).
    apply elem_of_app in Hin as [Hin|Hin]; [by left|right].
    apply elem_of_cons in Hin as [Hin|Hin].
    + injection Hin as _ _ _ -> _.
      eapply read_parts_words_per_line; [exact Hf|]. cbn. lia.
    + apply list_elem_of_singleton in Hin. discriminate Hin.
Qed.

End Handler.

(** ** The HTTP handlers: claims at work *)

(** The claim C7 fails as stated: right after the request is accepted the
    job is found with the status [uploading] and the progress 10, not
    [queued] and 0. *)
Lemma accepted_job_is_uploading :
  serve_progress (u "/progress/1700000000000") accepted_world
  = SendJson 200 uploading_record
  ∧ status_of uploading_record = u "uploading"
  ∧ status_of uploading_record ≠ u "queued"
  ∧ progress_of uploading_record = 10
  ∧ progress_of uploading_record ≠ 0.
Proof.
  split_and!; first [vm_compute; reflexivity|vm_compute; discriminate].
Qed.

Lemma accepted_job_lookup_witness :
  ∃ task_id : str,
    started_body (Form (Some (octets "RIFF")) 6 (u "medium") None
                    (u "1700000000000")) !! u "task_id"
    = Some (VStr task_id)
    ∧ progress_queue accepted_world !! task_id = Some uploading_record.
Proof.
  destruct (accepted_job_lookup sample_environment
              (sample_request [("words_per_line", "6");
                               ("task_id", "1700000000000")])
              fresh_world accepted_world
              (started_body (Form (Some (octets "RIFF")) 6 (u "medium") None
                               (u "1700000000000"))))
    as (task_id & Hbody & _ & Hq & _).
  - vm_compute. reflexivity.
  - exists task_id. split; [exact Hbody|exact Hq].
Defined.

(** The world after a request with [words_per_line=0], and after one
    with [words_per_line=-3]. *)
Definition zero_world : world () :=
  (handle_transcribe sample_environment
     (sample_request [("words_per_line", "0"); ("task_id", "1700000000000")])
     fresh_world).1.

Definition minus_world : world () :=
  (handle_transcribe sample_environment
     (sample_request [("words_per_line", "-3"); ("task_id", "1700000000000")])
     fresh_world).1.

(** The claim C2 fails as stated: a request with [words_per_line=0] is
    answered 200, its job is registered and its runner is started with 0;
    one with [words_per_line=-3] is answered 200 as well, its job is
    registered and its runner is started with 6. *)
Lemma non_positive_words_per_line_accepted :
  (handle_transcribe sample_environment
     (sample_request [("words_per_line", "0"); ("task_id", "1700000000000")])
     fresh_world).2
  = Ret (SendJson 200
           (started_body (Form (Some (octets "RIFF")) 0 (u "medium") None
                            (u "1700000000000"))))
  ∧ progress_queue zero_world !! u "1700000000000" = Some uploading_record
  ∧ started zero_world
    = [Transcription (u "/tmp/tmpabc.tmp") (u "medium") None 0
         (u "1700000000000");
       CleanupTempFile (u "/tmp/tmpabc.tmp") (u "1700000000000")]
  ∧ (handle_transcribe sample_environment
       (sample_request [("words_per_line", "-3");
                        ("task_id", "1700000000000")])
       fresh_world).2
    = Ret (SendJson 200
             (started_body (Form (Some (octets "RIFF")) 6 (u "medium") None
                              (u "1700000000000"))))
  ∧ progress_queue minus_world !! u "1700000000000" = Some uploading_record
  ∧ started minus_world
    = [Transcription (u "/tmp/tmpabc.tmp") (u "medium") None 6
         (u "1700000000000");
       CleanupTempFile (u "/tmp/tmpabc.tmp") (u "1700000000000")].
Proof. split_and!; vm_compute; reflexivity. Qed.

Lemma words_per_line_boundary_witness :
  Transcription (u "/tmp/tmpabc.tmp") (u "medium") None 6 (u "1700000000000")
    ∈ started fresh_world
  ∨ 0 ≤ 6.
Proof.
  apply (proj2 (proj2 (proj2
           (words_per_line_boundary sample_environment
              (sample_request [("words_per_line", "-3");
                               ("task_id", "1700000000000")])
              fresh_world)))).
  change (Transcription (u "/tmp/tmpabc.tmp") (u "medium") None 6
            (u "1700000000000") ∈ started minus_world).
  replace (started minus_world)
    with [Transcription (u "/tmp/tmpabc.tmp") (u "medium") None 6
            (u "1700000000000");
          CleanupTempFile (u "/tmp/tmpabc.tmp") (u "1700000000000")]
    by (vm_compute; reflexivity).
  apply list_elem_of_here.
Defined.

(** ** The periodic cleanup: proofs *)

(** The text of a task id that is read as a time stamp. *)
Definition stamp_text (task_id : str) : str :=
  if contains (u "_") task_id
  then default [] (head (split (u "_") task_id))
  else task_id.

Lemma foldl_delete_lookup (l : list (list Z)) (q : registry) (k : list Z) :
  foldl (λ q task_id, delete task_id q) q l !! k
  = if decide (k ∈ l) then None else q !! k.
Proof.
  revert q. induction l as [|x l IH]; intros q; [done|].
  cbn [foldl]. rewrite IH.
  destruct (decide (k ∈ l)) as [Hl|Hl].
  - rewrite decide_True by (by right). done.
  - destruct (decide (k = x)) as [->|Hx].
    + rewrite decide_True by (by left). apply lookup_delete_eq.
    + rewrite decide_False by (by intros [?|?]%elem_of_cons).
      by apply lookup_delete_ne.
Qed.

(** What a sweep of [cleanup_old_tasks] does to the entry of [task_id]:
    it deletes it when [to_remove] holds, that is when the id, or the text
    of the id before its first underscore, is read by [int] as a number of
    milliseconds that lies, divided by 1000, more than 1800 seconds before
    the time of the sweep, in floating-point arithmetic; otherwise the
    entry is as it was. The record is not looked at. *)
Lemma cleanup_sweep_lookup (current_time : PyFloat.float) (q : registry)
    (task_id : str) :
  cleanup_sweep current_time q !! task_id
  = (if to_remove current_time task_id then None else q !! task_id)
  ∧ (to_remove current_time task_id = true ↔
     ∃ (n : Z) (t : PyFloat.float),
       int_of_str (stamp_text task_id) = Some n
       ∧ PyFloat.int_truediv n 1000 = Ret t
       ∧ PyFloat.gt (PyFloat.sub current_time t) (PyFloat.of_int 1800) = true)
  ∧ (int_of_str (stamp_text task_id) = None →
     cleanup_sweep current_time q !! task_id = q !! task_id).
Proof.
  assert (Hlook : cleanup_sweep current_time q !! task_id
                  = if to_remove current_time task_id then None
                    else q !! task_id).
  { unfold cleanup_sweep. rewrite foldl_delete_lookup.
    destruct (to_remove current_time task_id) eqn:Hrm.
    - destruct (decide _) as [_|Hnot]; [done|].
      destruct (q !! task_id) as [r|] eqn:Hq; [|done].
      exfalso. apply Hnot. apply list_elem_of_In, filter_In.
      split; [|done]. apply list_elem_of_In, elem_of_elements, elem_of_dom.
      by eexists.
    - destruct (decide _) as [Hin|_]; [|done].
      apply list_elem_of_In, filter_In in Hin as [_ Hin]. congruence. }
  assert (Hiff : to_remove current_time task_id = true ↔
     ∃ (n : Z) (t : PyFloat.float),
       int_of_str (stamp_text task_id) = Some n
       ∧ PyFloat.int_truediv n 1000 = Ret t
       ∧ PyFloat.gt (PyFloat.sub current_time t) (PyFloat.of_int 1800) = true).
  { unfold to_remove, task_time, stamp_text, py_int.
    destruct (contains (u "_") task_id);
      (destruct (int_of_str _) as [n|]; cbn [mbind res_mbind res_bind];
       [destruct (PyFloat.int_truediv n 1000) as [t| |] eqn:Ht|]);
      split; try done;
      try (intros Hgt; by exists n, t);
      try (intros (n' & t' & [= <-] & Ht' & Hgt); congruence);
      try (intros (n' & t' & Hn' & _); discriminate Hn'). }
  split; [exact Hlook|]. split; [exact Hiff|].
  intros Hnone. rewrite Hlook.
  destruct (to_remove current_time task_id) eqn:Hrm; [|done].
  destruct (proj1 Hiff eq_refl) as (n & t & Hn & _). congruence.
Qed.

(** The world after a request that names no task id: the id is the one
    [uuid.uuid4()] gave. *)
Definition uuid_world : world () :=
  (handle_transcribe sample_environment
     (sample_request [("words_per_line", "6")]) fresh_world).1.

(** The sweeps of [cleanup_old_tasks] leave the entry of an id that no
    sweep collects. *)
Lemma cleanup_old_tasks_lookup (times : list PyFloat.float) (q : registry)
    (task_id : str) :
  (∀ t : PyFloat.float, to_remove t task_id = false) →
  cleanup_old_tasks times q !! task_id = q !! task_id.
Proof.
  intros Hkeep. unfold cleanup_old_tasks. revert q.
  induction times as [|t times IH]; intros q; [done|].
  cbn [foldl]. rewrite IH.
  destruct (cleanup_sweep_lookup t q task_id) as (-> & _).
  by rewrite Hkeep.
Qed.

(** C8 (the defect). A job accepted without a [task_id] field has the id
    [str(uuid.uuid4())] the server gave it. [int] raises [ValueError] on
    such an id, the [except: continue] of the sweep passes over it, and the
    entry is in the registry after the sweeps of [cleanup_old_tasks],
    however many and whatever their times: the job is never removed,
    though it is "una tarea" that has, in the end, "más de 30 minutos".
    The entry of the same request under an id of the page's make
    ([Date.now()], here [1700000000000]) is removed by the sweep an hour
    later. *)
Theorem uuid_job_never_swept :
  progress_queue uuid_world !! u "123e4567-e89b-42d3-a456-426614174000"
  = Some uploading_record
  ∧ (∀ times : list PyFloat.float,
       cleanup_old_tasks times (progress_queue uuid_world)
         !! u "123e4567-e89b-42d3-a456-426614174000"
       = Some uploading_record)
  ∧ progress_queue accepted_world !! u "1700000000000"
    = Some uploading_record
  ∧ cleanup_old_tasks [PyFloat.dec 1700003600 1]
      (progress_queue accepted_world) !! u "1700000000000"
    = None.
Proof.
  assert (Hthere : progress_queue uuid_world
                     !! u "123e4567-e89b-42d3-a456-426614174000"
                   = Some uploading_record) by (vm_compute; reflexivity).
  assert (Hraise : task_time (u "123e4567-e89b-42d3-a456-426614174000")
                   = Exc (Exn ValueError
                            (u "invalid literal for int() with base 10")))
    by (vm_compute; reflexivity).
  split; [exact Hthere|]. split.
  - intros times. rewrite cleanup_old_tasks_lookup; [exact Hthere|].
    intros t. unfold to_remove. by rewrite Hraise.
  - split; vm_compute; reflexivity.
Qed.

(** ** Binary64 numbers: proofs *)

(** The exponent of the last bit of the significand of [z] grid steps. *)
Definition binade_shift (z : Z) : Z := Z.max 0 (Z.log2 z - 52).

(** [z / 2^1074] is a binary64 number that is not negative: [z] has at
    most 53 significant bits. *)
Definition representable (z : Z) : Prop :=
  0 ≤ z ∧ z mod 2 ^ Z.max 0 (Z.log2 z - 52) = 0.

Section Binary64.

Import PyFloat.

Lemma rne_exact (k d : Z) : 0 < d → rne (k * d) d = k.
Proof.
  intros Hd. unfold rne. rewrite Z.div_mul, Z.mod_mul by lia.
  destruct (Z.ltb_spec (2 * 0) d); [done|lia].
Qed.

Lemma rne_bounds (a d : Z) : 0 < d → a / d ≤ rne a d ≤ a / d + 1.
Proof. intros Hd. unfold rne. repeat case_match; lia. Qed.

Lemma rne_le (a d k : Z) : 0 < d → a ≤ k * d → rne a d ≤ k.
Proof.
  intros Hd Hk. unfold rne.
  pose proof (Z.div_mod a d ltac:(lia)) as Hdm.
  pose proof (Z.mod_pos_bound a d Hd) as Hr.
  assert (a / d ≤ k) by nia.
  destruct (Z.ltb_spec (2 * (a mod d)) d); [done|].
  assert (a / d < k) by nia.
  repeat case_match; lia.
Qed.

Lemma rne_ge (a d k : Z) : 0 < d → k * d ≤ a → k ≤ rne a d.
Proof.
  intros Hd Hk. pose proof (rne_bounds a d Hd).
  assert (k ≤ a / d) by (apply Z.div_le_lower_bound; lia). lia.
Qed.

Lemma rne_below_half (a d k : Z) :
  0 < d → 2 * a < (2 * k - 1) * d → rne a d ≤ k - 1.
Proof.
  intros Hd Hk. unfold rne.
  pose proof (Z.div_mod a d ltac:(lia)) as Hdm.
  pose proof (Z.mod_pos_bound a d Hd) as Hr.
  assert (a / d ≤ k - 1) by nia.
  destruct (Z.ltb_spec (2 * (a mod d)) d); [done|].
  assert (a / d < k - 1) by nia.
  repeat case_match; lia.
Qed.

Lemma pow2_pos (s : Z) : 0 ≤ s → 0 < 2 ^ s.
Proof. intros. by apply Z.pow_pos_nonneg. Qed.

Lemma binade_shift_nonneg z : 0 ≤ binade_shift z.
Proof. unfold binade_shift. lia. Qed.

Lemma binade_shift_mono (a b : Z) : a ≤ b → binade_shift a ≤ binade_shift b.
Proof. intros H. unfold binade_shift. pose proof (Z.log2_le_mono a b H). lia. Qed.

Lemma mod_pow2_le (z s s' : Z) :
  0 ≤ s' ≤ s → z mod 2 ^ s = 0 → z mod 2 ^ s' = 0.
Proof.
  intros Hs Hz.
  apply Z.mod_divide in Hz; [|pose proof (pow2_pos s); lia].
  apply Z.mod_divide; [pose proof (pow2_pos s'); lia|].
  etransitivity; [|exact Hz].
  exists (2 ^ (s - s')). rewrite <- Z.pow_add_r by lia. f_equal. lia.
Qed.

Lemma round_pos_exact (z q : Z) :
  0 < q → representable z → round_pos (z * q) q = z.
Proof.
  intros Hq [Hz Hmod]. unfold round_pos. rewrite Z.div_mul by lia.
  fold (binade_shift z) in *. pose proof (binade_shift_nonneg z). pose proof (pow2_pos (binade_shift z)).
  pose proof (Z.div_mod z (2 ^ binade_shift z) ltac:(lia)) as Hdm.
  rewrite Hmod in Hdm.
  replace (z * q) with (z / 2 ^ binade_shift z * (q * 2 ^ binade_shift z)) by nia.
  rewrite rne_exact by nia. nia.
Qed.

Lemma round_pos_le (p q z : Z) :
  0 < q → 0 ≤ p → representable z → p ≤ z * q → round_pos p q ≤ z.
Proof.
  intros Hq Hp [Hz Hmod] Hle. unfold round_pos.
  fold (binade_shift (p / q)). fold (binade_shift z) in Hmod.
  assert (Hpq : p / q ≤ z) by (apply Z.div_le_upper_bound; lia).
  pose proof (binade_shift_mono _ _ Hpq) as Hs.
  pose proof (binade_shift_nonneg (p / q)) as Hs0.
  pose proof (pow2_pos _ Hs0) as Hpow.
  pose proof (mod_pow2_le z _ _ (conj Hs0 Hs) Hmod) as Hmod'.
  pose proof (Z.div_mod z (2 ^ binade_shift (p / q)) ltac:(lia)) as Hdm.
  rewrite Hmod' in Hdm.
  assert (rne p (q * 2 ^ binade_shift (p / q)) ≤ z / 2 ^ binade_shift (p / q)).
  { apply rne_le; nia. }
  nia.
Qed.

Lemma log2_lt_pow2' (z k : Z) : 0 ≤ z → Z.log2 z < k → z < 2 ^ k.
Proof.
  intros Hz Hk. destruct (Z.eq_dec z 0) as [->|Hnz].
  - apply pow2_pos. pose proof (Z.log2_nonneg 0). lia.
  - apply Z.log2_lt_pow2; lia.
Qed.

Lemma round_pos_ge (p q z : Z) :
  0 < q → representable z → z * q ≤ p → z ≤ round_pos p q.
Proof.
  intros Hq [Hz Hmod] Hle. unfold round_pos.
  fold (binade_shift (p / q)). fold (binade_shift z) in Hmod.
  assert (Hpq : z ≤ p / q) by (apply Z.div_le_lower_bound; lia).
  pose proof (binade_shift_mono _ _ Hpq) as Hs.
  pose proof (binade_shift_nonneg (p / q)) as Hs0.
  pose proof (binade_shift_nonneg z) as Hsz0.
  pose proof (pow2_pos _ Hs0) as Hpow.
  destruct (Z.eq_dec (binade_shift z) (binade_shift (p / q))) as [Heq|Hne].
  - rewrite <- Heq. rewrite <- Heq in Hpow.
    pose proof (Z.div_mod z (2 ^ binade_shift z) ltac:(lia)) as Hdm.
    rewrite Hmod in Hdm.
    assert (z / 2 ^ binade_shift z ≤ rne p (q * 2 ^ binade_shift z)).
    { apply rne_ge; nia. }
    nia.
  - assert (Hlt : binade_shift z < binade_shift (p / q)) by lia.
    assert (Hsp : binade_shift (p / q) = Z.log2 (p / q) - 52) by (unfold binade_shift in *; lia).
    assert (Hzlt : z < 2 ^ (binade_shift (p / q) + 52)).
    { apply log2_lt_pow2'; [done|]. unfold binade_shift in Hlt |- *. lia. }
    assert (Hpge : 2 ^ (binade_shift (p / q) + 52) ≤ p / q).
    { rewrite Hsp. replace (Z.log2 (p / q) - 52 + 52) with (Z.log2 (p / q)) by lia.
      apply Z.log2_spec. unfold binade_shift in *. 
      destruct (Z.le_gt_cases (p / q) 0) as [H0|H0]; [|done].
      rewrite (Z.log2_nonpos _ H0) in *. lia. }
    assert (2 ^ 52 ≤ rne p (q * 2 ^ binade_shift (p / q))).
    { apply rne_ge; [nia|].
      rewrite Z.pow_add_r in Hpge by lia.
      assert (2 ^ binade_shift (p / q) * 2 ^ 52 * q ≤ p).
      { pose proof (Z.mul_div_le p q Hq). nia. }
      nia. }
    rewrite Z.pow_add_r in Hzlt by lia. nia.
Qed.

Lemma one_eq : one = 2 ^ 1074.
Proof. reflexivity. Qed.

Lemma huge_eq : huge = 2 ^ 1024 * one.
Proof. unfold huge, one. rewrite <- Z.pow_add_r by lia. reflexivity. Qed.

#[local] Opaque one huge.


Lemma one_pos : 0 < one.
Proof. rewrite one_eq. by apply pow2_pos. Qed.

(** Whole numbers below [2^53] are representable. *)
Lemma representable_int (k : Z) : 0 ≤ k < 2 ^ 53 → representable (k * one).
Proof.
  intros [Hk0 Hk]. pose proof one_pos. split; [nia|].
  destruct (Z.eq_dec k 0) as [->|Hnz]; [by rewrite Z.mul_0_l, Z.mod_0_l|].
  rewrite one_eq, Z.log2_mul_pow2 by lia.
  assert (Z.log2 k < 53) by (apply Z.log2_lt_pow2; lia).
  pose proof (Z.log2_nonneg k).
  rewrite Z.max_r by lia.
  replace 1074 with ((1074 - (1074 + Z.log2 k - 52)) + (1074 + Z.log2 k - 52)) at 1 by lia.
  rewrite Z.pow_add_r by lia. rewrite Z.mul_assoc. apply Z.mod_mul.
  pose proof (pow2_pos (1074 + Z.log2 k - 52)). lia.
Qed.

Lemma round_exact (z q : Z) :
  0 < q → representable z → z < huge → round (z * q) q = Fin z.
Proof.
  intros Hq Hr Hz. unfold round.
  assert (0 ≤ z) by apply Hr.
  rewrite Z.abs_eq by nia. rewrite round_pos_exact by done.
  destruct (Z.leb_spec huge z); [lia|]. f_equal.
  destruct (Z.eq_dec z 0) as [->|]; [done|].
  rewrite Z.sgn_pos by nia. lia.
Qed.

Lemma int_lt_huge (k : Z) : k < 2 ^ 53 → k * one < huge.
Proof.
  intros Hk. rewrite huge_eq. pose proof one_pos.
  assert (2 ^ 53 < 2 ^ 1024) by (apply Z.pow_lt_mono_r; lia). nia.
Qed.

Lemma round_int (k q : Z) :
  0 < q → 0 ≤ k < 2 ^ 53 → round (k * one * q) q = Fin (k * one).
Proof.
  intros Hq Hk. apply round_exact; [done|by apply representable_int|].
  apply int_lt_huge. lia.
Qed.

Lemma of_int_exact (k : Z) : 0 ≤ k < 2 ^ 53 → of_int k = Fin (k * one).
Proof.
  intros Hk. unfold of_int.
  rewrite <- (Z.mul_1_r (k * one)) at 1. by apply round_int.
Qed.

(** [x % c] for a whole [c] and [x >= 0]: exact. *)
Lemma rem_exact (n c : Z) :
  0 ≤ n → 0 < c →
  rem (Fin n) (Fin (c * one)) = Ret (Fin (n mod (c * one))).
Proof.
  intros Hn Hc. pose proof one_pos. unfold rem, is_zero, fmod, ltz.
  destruct (Z.eqb_spec (c * one) 0); [nia|].
  rewrite Z.rem_mod_nonneg by nia.
  pose proof (Z.mod_pos_bound n (c * one) ltac:(nia)).
  destruct (Z.eqb_spec (n mod (c * one)) 0) as [->|]; [done|].
  destruct (Z.ltb_spec (c * one) 0); [nia|].
  destruct (Z.ltb_spec (n mod (c * one)) 0); [lia|]. done.
Qed.

(** [x // c] for a whole [c] and [0 <= x < 2^53]: exact. *)
Lemma floordiv_exact (n c : Z) :
  0 ≤ n < 2 ^ 53 * one → 0 < c →
  floordiv (Fin n) (Fin (c * one)) = Ret (Fin (n / (c * one) * one)).
Proof.
  intros [Hn0 Hn] Hc. pose proof one_pos as Hone.
  unfold floordiv, is_zero at 1.
  destruct (Z.eqb_spec (c * one) 0); [nia|].
  unfold fmod. destruct (Z.eqb_spec (c * one) 0); [nia|].
  rewrite Z.rem_mod_nonneg by nia.
  pose proof (Z.mod_pos_bound n (c * one) ltac:(nia)) as Hr.
  pose proof (Z.div_mod n (c * one) ltac:(nia)) as Hdm.
  set (k := n / (c * one)) in *. set (r := n mod (c * one)) in *.
  assert (Hk0 : 0 ≤ k) by (apply Z.div_pos; nia).
  assert (Hck : 0 ≤ c * k < 2 ^ 53) by nia.
  assert (Hk : 0 ≤ k < 2 ^ 53) by nia.
  assert (Hsub : sub (Fin n) (Fin r) = Fin (c * k * one)).
  { unfold sub, neg, add.
    replace (n + - r) with (c * k * one * 1) by lia.
    by apply round_int. }
  rewrite Hsub.
  assert (Hdiv : div (Fin (c * k * one)) (Fin (c * one)) = Fin (k * one)).
  { unfold div. rewrite Z.sgn_pos, Z.abs_eq by nia.
    replace (c * k * one * one * 1) with (k * one * (c * one)) by lia.
    apply round_int; [nia|done]. }
  rewrite Hdiv.
  assert (Hadj : negb (is_zero (Fin r)) && negb (eqb (ltz (Fin (c * one))) (ltz (Fin r))) = false).
  { unfold ltz. destruct (Z.ltb_spec (c * one) 0); [nia|].
    destruct (Z.ltb_spec r 0); [lia|]. apply andb_false_r. }
  rewrite Hadj. unfold is_zero.
  destruct (Z.eqb_spec (k * one) 0) as [->|Hnz]; [f_equal; f_equal; nia|].
  unfold floor. rewrite Z.div_mul by lia.
  unfold sub, neg, add.
  replace (k * one + - (k * one)) with (0 * one * 1) by lia.
  rewrite round_int by first [lia|split; [lia|by apply pow2_pos]].
  unfold gt. rewrite Z.mul_0_l.
  destruct (Z.ltb_spec (one / 2) 0) as [Hneg|_]; [|done].
  pose proof (Z.div_pos one 2 ltac:(lia) ltac:(lia)). lia.
Qed.

Lemma one_split : one = 2 ^ 53 * 2 ^ 1021.
Proof. rewrite one_eq. change 1074 with (53 + 1021). by rewrite Z.pow_add_r by lia. Qed.

(** The fraction of a representable number ends at least one step of
    [2^-53] below 1. *)
Lemma frac_bound (n : Z) :
  representable n → n mod one ≤ one - 2 ^ 1021.
Proof.
  intros [Hn0 Hmod]. pose proof one_pos as Hone.
  pose proof (pow2_pos 1021 ltac:(lia)) as HA.
  pose proof one_split as Hsplit.
  destruct (Z.lt_ge_cases n one) as [Hlt|Hge].
  - rewrite Z.mod_small by lia.
    destruct (Z.eq_dec n 0) as [->|Hnz]; [nia|].
    assert (Hlog : Z.log2 n < 1074)
      by (apply Z.log2_lt_pow2; [lia|by rewrite <- one_eq]).
    destruct (Z.eq_dec (Z.log2 n) 1073) as [H1073|Hne].
    + rewrite H1073 in Hmod. change (Z.max 0 (1073 - 52)) with 1021 in Hmod.
      pose proof (Z.div_mod n (2 ^ 1021) ltac:(lia)) as Hdm.
      rewrite Hmod in Hdm. nia.
    + assert (n < 2 ^ 1073) by (apply log2_lt_pow2'; lia).
      assert (2 ^ 1073 = 2 ^ 52 * 2 ^ 1021)
        by (change 1073 with (52 + 1021); by rewrite Z.pow_add_r by lia).
      assert (2 ^ 53 = 2 * 2 ^ 52) by reflexivity.
      assert (0 < 2 ^ 52) by reflexivity.
      nia.
  - assert (Hlog : 1074 ≤ Z.log2 n).
    { apply Z.log2_le_pow2; [lia|by rewrite <- one_eq]. }
    assert (Hm : n mod 2 ^ 1022 = 0).
    { eapply mod_pow2_le; [|exact Hmod]. lia. }
    assert (H1022 : 2 ^ 1022 = 2 * 2 ^ 1021)
      by (change 1022 with (Z.succ 1021); apply Z.pow_succ_r; lia).
    assert (Hone' : one = 2 ^ 52 * 2 ^ 1022).
    { rewrite one_eq. change 1074 with (52 + 1022).
      by rewrite Z.pow_add_r by lia. }
    assert (Hf : (n mod one) mod 2 ^ 1022 = 0).
    { rewrite Hone'. rewrite Z.mul_comm.
      rewrite Z.rem_mul_r by (try reflexivity; lia).
      rewrite Hm, Z.add_0_l, Z.mul_comm. apply Z.mod_mul. lia. }
    pose proof (Z.mod_pos_bound n one Hone) as Hb.
    pose proof (Z.div_mod (n mod one) (2 ^ 1022) ltac:(lia)) as Hdm.
    rewrite Hf in Hdm.
    assert (0 < 2 ^ 52) by reflexivity.
    nia.
Qed.

(** The milliseconds: the product [(x % 1) * 1000], rounded, then cut. *)
Lemma milliseconds_bounds (f : Z) :
  0 ≤ f < one →
  ∃ r : Z,
    mul (Fin f) (Fin (1000 * one)) = Fin r
    ∧ 1000 * f / one ≤ r / one ≤ 1000 * f / one + 1
    ∧ 0 ≤ r
    ∧ (f ≤ one - 2 ^ 1021 → r / one ≤ 999).
Proof.
  intros [Hf0 Hf]. pose proof one_pos as Hone.
  set (p := f * (1000 * one)).
  assert (Hp : 0 ≤ p) by (subst p; nia).
  assert (Hle : round_pos p one ≤ 1000 * one).
  { apply round_pos_le; [done..|apply representable_int; split; [lia|reflexivity]|].
    subst p. nia. }
  assert (Hge : 0 ≤ round_pos p one).
  { apply (round_pos_ge p one 0); [done| |lia].
    split; [lia|]. by rewrite Z.mod_0_l. }
  exists (round_pos p one). split; [|split; [|split]].
  - unfold mul, round. fold p. rewrite Z.abs_eq by done.
    pose proof (int_lt_huge 1000 ltac:(reflexivity)).
    destruct (Z.leb_spec huge (round_pos p one)); [lia|]. f_equal.
    destruct (Z.eq_dec p 0) as [Hp0|Hnz].
    + rewrite Hp0 in *. rewrite Z.sgn_0.
      assert (round_pos 0 one ≤ 0).
      { apply round_pos_le; [done|lia| |lia]. split; [lia|]. by rewrite Z.mod_0_l. }
      lia.
    + rewrite Z.sgn_pos by lia. lia.
  - set (j := 1000 * f / one).
    pose proof (Z.div_mod (1000 * f) one ltac:(lia)) as Hdm.
    pose proof (Z.mod_pos_bound (1000 * f) one Hone) as Hb.
    fold j in Hdm.
    assert (Hj : 0 ≤ j < 1000).
    { subst j. split; [apply Z.div_pos; lia|].
      apply Z.div_lt_upper_bound; lia. }
    assert (H53 : (1000 : Z) < 2 ^ 53) by reflexivity.
    assert (j * one ≤ round_pos p one).
    { apply round_pos_ge; [done|apply representable_int; lia|].
      subst p. nia. }
    assert (round_pos p one ≤ (j + 1) * one).
    { apply round_pos_le; [done..|apply representable_int; lia|].
      subst p. nia. }
    split.
    + apply Z.div_le_lower_bound; lia.
    + apply Z.lt_succ_r. apply Z.div_lt_upper_bound; [done|]. nia.
  - exact Hge.
  - intros Hfb.
    assert (round_pos p one < 1000 * one); [|apply Z.lt_succ_r, Z.div_lt_upper_bound; lia].
    pose proof (pow2_pos 1021 ltac:(lia)) as HA.
    pose proof one_split as Hsplit.
    assert (Hpq : p / one = 1000 * f).
    { subst p. replace (f * (1000 * one)) with (1000 * f * one) by lia.
      apply Z.div_mul. lia. }
    assert (H512 : 2 ^ 1083 = 512 * one).
    { rewrite one_eq. change 1083 with (9 + 1074).
      by rewrite Z.pow_add_r by lia. }
    destruct (Z.lt_ge_cases (1000 * f) (512 * one)) as [Hsmall|Hbig].
    + assert (round_pos p one ≤ 512 * one); [|lia].
      apply round_pos_le; [done..|apply representable_int; split; [lia|reflexivity]|].
      subst p. nia.
    + unfold round_pos. rewrite Hpq.
      assert (Hlog : Z.log2 (1000 * f) = 1083).
      { apply Z.log2_unique; [lia|]. rewrite H512.
        replace (2 ^ (1083 + 1)) with (1024 * one); [lia|].
        rewrite one_eq. change (1083 + 1) with (10 + 1074).
        by rewrite Z.pow_add_r by lia. }
      rewrite Hlog. change (Z.max 0 (1083 - 52)) with 1031.
      assert (H1031 : 2 ^ 1031 = 1024 * 2 ^ 1021)
        by (change 1031 with (10 + 1021); by rewrite Z.pow_add_r by lia).
      assert (H43 : 2 ^ 53 = 1024 * 2 ^ 43) by reflexivity.
      assert (H43' : 0 < 2 ^ 43) by reflexivity.
      assert (rne p (one * 2 ^ 1031) ≤ 1000 * 2 ^ 43 - 1).
      { apply rne_below_half; [nia|]. subst p. nia. }
      nia.
Qed.

Lemma to_int_whole (k : Z) : to_int (Fin (k * one)) = Ret k.
Proof. unfold to_int. pose proof one_pos. by rewrite Z.quot_mul by lia. Qed.

Lemma mod_whole (n c : Z) :
  0 < c → n mod (c * one) = n mod one + one * ((n / one) mod c).
Proof.
  intros Hc. pose proof one_pos. rewrite (Z.mul_comm c one).
  apply Z.rem_mul_r; lia.
Qed.

Lemma div_whole (n c : Z) : 0 < c → n / (c * one) = n / one / c.
Proof.
  intros Hc. pose proof one_pos. rewrite (Z.mul_comm c one).
  by rewrite Z.div_div by lia.
Qed.

(** The whole seconds of [x >= 0], split into hours, minutes and
    seconds; the milliseconds as the code computes them. *)
Lemma format_timestamp_value (n : Z) :
  0 ≤ n < 2 ^ 53 * one →
  ∃ r : Z,
    mul (Fin (n mod one)) (of_int 1000) = Fin r
    ∧ 0 ≤ r
    ∧ format_timestamp (Fin n)
      = Ret (format_0d 2 (n / one / 3600) ++ u ":"
             ++ format_0d 2 (n / one mod 3600 / 60) ++ u ":"
             ++ format_0d 2 (n / one mod 60) ++ u ","
             ++ format_0d 3 (r / one))
    ∧ 1000 * (n mod one) / one ≤ r / one ≤ 1000 * (n mod one) / one + 1
    ∧ (representable n → r / one ≤ 999).
Proof.
  intros [Hn0 Hn]. pose proof one_pos as Hone.
  pose proof (Z.mod_pos_bound n one Hone) as Hf.
  destruct (milliseconds_bounds (n mod one) Hf) as (r & Hmul & Hms & Hr & H999).
  exists r.
  assert (H3600 : of_int 3600 = Fin (3600 * one))
    by (apply of_int_exact; split; [lia|reflexivity]).
  assert (H60 : of_int 60 = Fin (60 * one))
    by (apply of_int_exact; split; [lia|reflexivity]).
  assert (H1 : of_int 1 = Fin (1 * one))
    by (apply of_int_exact; split; [lia|reflexivity]).
  assert (H1000 : of_int 1000 = Fin (1000 * one))
    by (apply of_int_exact; split; [lia|reflexivity]).
  rewrite H1000. split; [exact Hmul|]. split; [exact Hr|].
  split; [|split; [exact Hms|]].
  - unfold format_timestamp. rewrite H3600, H60, H1, H1000.
    pose proof (Z.mod_pos_bound n (3600 * one) ltac:(lia)) as Hr3600.
    assert (H53 : 3600 * one ≤ 2 ^ 53 * one).
    { apply Z.mul_le_mono_nonneg_r; [lia|]. intros Hc. discriminate Hc. }
    rewrite (floordiv_exact n 3600) by (split; lia || done).
    rewrite (rem_exact n 3600), (rem_exact n 60), (rem_exact n 1) by lia.
    cbn [mbind res_mbind res_bind]. rewrite to_int_whole.
    cbn [mbind res_mbind res_bind].
    rewrite (floordiv_exact (n mod (3600 * one)) 60) by (split; lia || done).
    cbn [mbind res_mbind res_bind]. rewrite to_int_whole.
    cbn [mbind res_mbind res_bind].
    pose proof (Z.mod_pos_bound n (60 * one) ltac:(lia)) as Hr60.
    unfold to_int at 1. cbn [mbind res_mbind res_bind].
    rewrite Z.mul_1_l, Hmul. unfold to_int. cbn [mbind res_mbind res_bind].
    f_equal.
    rewrite !Z.quot_div_nonneg by lia.
    rewrite div_whole by lia.
    assert (Hm : n mod (3600 * one) / (60 * one) = n / one mod 3600 / 60).
    { rewrite div_whole, mod_whole by lia.
      rewrite (Z.mul_comm one), Z.div_add by lia.
      rewrite (Z.div_small (n mod one)) by lia. by rewrite Z.add_0_l. }
    assert (Hs : n mod (60 * one) / one = n / one mod 60).
    { rewrite mod_whole by lia.
      rewrite (Z.mul_comm one), Z.div_add by lia.
      rewrite (Z.div_small (n mod one)) by lia. by rewrite Z.add_0_l. }
    by rewrite Hm, Hs.
  - intros Hrep. apply H999. by apply frac_bound.
Qed.

End Binary64.

#[local] Transparent PyFloat.one PyFloat.huge.

(** ** Timestamps: claims *)

Lemma format_0d_width (w : nat) (bound : nat) (v : Z) :
  forallb (λ k, length (format_0d w (Z.of_nat k)) =? w)%nat (seq 0 bound)
  = true →
  0 ≤ v < Z.of_nat bound → length (format_0d w v) = w.
Proof.
  intros Hall Hv. rewrite forallb_forall in Hall.
  specialize (Hall (Z.to_nat v)). rewrite Z2Nat.id in Hall by lia.
  apply Nat.eqb_eq, Hall, in_seq. lia.
Qed.

(** Two digits below 100, three below 1000. *)
Lemma format_0d_2_length (v : Z) : 0 ≤ v < 100 → length (format_0d 2 v) = 2%nat.
Proof. apply (format_0d_width 2 100). vm_compute. reflexivity. Qed.

Lemma format_0d_3_length (v : Z) :
  0 ≤ v < 1000 → length (format_0d 3 v) = 3%nat.
Proof. apply (format_0d_width 3 1000). vm_compute. reflexivity. Qed.

(** C3 (as the code has it). For a binary64 number of seconds [x] with
    [0 <= x < 2^53], [format_timestamp] returns
    [HH:MM:SS,mmm] where [HH], [MM] and [SS] are the hours (not wrapped at
    24, two digits or more), the minutes and the seconds of the whole
    seconds [floor x], exactly, and [mmm] is the truncation of the
    floating-point product [(x % 1) * 1000]: the truncated milliseconds of
    [x], or one more when the product rounds up to a whole number; it
    never exceeds 999. In particular 3725.125 gives [01:02:05,125], and 0,
    59.999, 3600 and 90000 give [00:00:00,000], [00:00:59,999],
    [01:00:00,000] and [25:00:00,000]. *)
Theorem format_timestamp_truncates :
  (∀ n : Z,
     representable n → n < 2 ^ 53 * PyFloat.one →
     ∃ ms : Z,
       format_timestamp (PyFloat.Fin n)
       = Ret (format_0d 2 (n / PyFloat.one / 3600) ++ u ":"
              ++ format_0d 2 (n / PyFloat.one mod 3600 / 60) ++ u ":"
              ++ format_0d 2 (n / PyFloat.one mod 60) ++ u ","
              ++ format_0d 3 ms)
       ∧ PyFloat.to_int
           (PyFloat.mul (PyFloat.Fin (n mod PyFloat.one)) (PyFloat.of_int 1000))
         = Ret ms
       ∧ 1000 * (n mod PyFloat.one) / PyFloat.one ≤ ms
         ≤ 1000 * (n mod PyFloat.one) / PyFloat.one + 1
       ∧ ms ≤ 999
       ∧ length (format_0d 2 (n / PyFloat.one mod 3600 / 60)) = 2%nat
       ∧ length (format_0d 2 (n / PyFloat.one mod 60)) = 2%nat
       ∧ length (format_0d 3 ms) = 3%nat)
  ∧ format_timestamp (PyFloat.dec 3725125 1000) = Ret (u "01:02:05,125")
  ∧ format_timestamp (PyFloat.dec 0 1) = Ret (u "00:00:00,000")
  ∧ format_timestamp (PyFloat.dec 59999 1000) = Ret (u "00:00:59,999")
  ∧ format_timestamp (PyFloat.dec 3600 1) = Ret (u "01:00:00,000")
  ∧ format_timestamp (PyFloat.dec 90000 1) = Ret (u "25:00:00,000").
Proof.
  split; [|split_and!; vm_compute; reflexivity].
  intros n Hrep Hn.
  destruct (format_timestamp_value n (conj (proj1 Hrep) Hn))
    as (r & Hmul & Hr & Hfmt & Hms & H999).
  specialize (H999 Hrep).
  assert (Hone : 0 < PyFloat.one) by apply one_pos.
  assert (Hms0 : 0 ≤ r / PyFloat.one) by (apply Z.div_pos; lia).
  exists (r / PyFloat.one). split; [exact Hfmt|].
  split.
  { rewrite Hmul. unfold PyFloat.to_int. by rewrite Z.quot_div_nonneg by lia. }
  split; [exact Hms|]. split; [exact H999|].
  assert (Hn0 : 0 ≤ n / PyFloat.one) by (apply Z.div_pos; [apply Hrep|lia]).
  pose proof (Z.mod_pos_bound (n / PyFloat.one) 3600 ltac:(lia)).
  pose proof (Z.mod_pos_bound (n / PyFloat.one) 60 ltac:(lia)).
  split; [|split].
  - apply format_0d_2_length. split; [apply Z.div_pos; lia|].
    apply Z.div_lt_upper_bound; lia.
  - apply format_0d_2_length. lia.
  - apply format_0d_3_length. lia.
Qed.

(** The double nearest to 0.009, in grid steps. *)
Definition nine_thousandths : Z :=
  match PyFloat.dec 9 1000 with
  | PyFloat.Fin n => n
  | _ => 0
  end.

(** The claim C3 fails as stated: the double nearest to 0.009 lies below
    0.009, so that its truncated milliseconds are 8, and it is rendered
    with 9; and positive infinity is not rendered at all. *)
Lemma milliseconds_above_value :
  PyFloat.dec 9 1000 = PyFloat.Fin nine_thousandths
  ∧ 1000 * nine_thousandths / PyFloat.one = 8
  ∧ format_timestamp (PyFloat.dec 9 1000) = Ret (u "00:00:00,009")
  ∧ format_timestamp (PyFloat.Inf false)
    = Exc (Exn ValueError (u "cannot convert float NaN to integer")).
Proof. split_and!; vm_compute; reflexivity. Qed.

Lemma format_timestamp_truncates_witness :
  ∃ ms : Z,
    format_timestamp (PyFloat.Fin nine_thousandths)
    = Ret (format_0d 2 (nine_thousandths / PyFloat.one / 3600) ++ u ":"
           ++ format_0d 2 (nine_thousandths / PyFloat.one mod 3600 / 60)
           ++ u ":"
           ++ format_0d 2 (nine_thousandths / PyFloat.one mod 60) ++ u ","
           ++ format_0d 3 ms)
    ∧ ms ≤ 999.
Proof.
  destruct (proj1 format_timestamp_truncates nine_thousandths)
    as (ms & Hfmt & _ & _ & H999 & _).
  - split; [vm_compute; discriminate|vm_compute; reflexivity].
  - vm_compute. reflexivity.
  - exists ms. split; [exact Hfmt|exact H999].
Defined.
